(** * rpatoolkit: header-row location and column reconciliation

    A shallow embedding of

      - [rpatoolkit/excel/find_header_row.py]  (module [Excel]),
      - [rpatoolkit/df/read_excel.py]          (modules [Df], [ReadExcel]),
      - [rpatoolkit/df/utils.py]               (modules [Columns], [Utils]),
      - [rpatoolkit/excel/read_excel_sheet.py] (module [ReadExcelSheet]),

    together with the Python text primitives they rely on (module [Py])
    and the name normalizer of the specification (module [Normalizer]).
    What polars, calamine and openpyxl do is not modelled beyond what the
    definitions say: a call into them is a parameter, or a function on
    the column names with the exception it raises.

    Text is modelled as [string], a sequence of 8-bit characters read as
    UTF-8.  On ASCII text ([Py.is_ascii]) the primitives of module [Py]
    are Python's.  Beyond it the model is coarser than Python: every byte
    above 127 counts as word content (it belongs to a non-ASCII letter
    such as the accented letters of "Café") and is left as it is by
    [Py.lower], so a statement that rests on case folding or on the
    character classes is made for ASCII text. *)

From Stdlib Require Import ZArith Ascii String Lia.
From stdpp Require Import gmap strings list fin_maps pretty.

Open Scope string_scope.
Open Scope list_scope.

(* ===================================================================== *)
(** * Python text primitives *)
(* ===================================================================== *)

Module Py.

(** [c.isspace()] on the ASCII range: TAB..CR, FS..US and SPACE. *)
Definition is_space (c : ascii) : bool :=
  let n := nat_of_ascii c in
  ((9 <=? n)%nat && (n <=? 13)%nat) || ((28 <=? n)%nat && (n <=? 32)%nat).

Definition is_upper (c : ascii) : bool :=
  let n := nat_of_ascii c in (65 <=? n)%nat && (n <=? 90)%nat.

Definition is_lower (c : ascii) : bool :=
  let n := nat_of_ascii c in (97 <=? n)%nat && (n <=? 122)%nat.

Definition is_digit (c : ascii) : bool :=
  let n := nat_of_ascii c in (48 <=? n)%nat && (n <=? 57)%nat.

(** The class [\w] of the [re] module: letters, digits, the underscore,
    and (see the header) every byte of a non-ASCII character. *)
Definition is_word (c : ascii) : bool :=
  is_upper c || is_lower c || is_digit c
  || (nat_of_ascii c =? 95)%nat || (128 <=? nat_of_ascii c)%nat.

(** The class [[^\w\s]]. *)
Definition is_punct (c : ascii) : bool := negb (is_word c) && negb (is_space c).

Definition lower_char (c : ascii) : ascii :=
  if is_upper c then ascii_of_nat (nat_of_ascii c + 32) else c.

(** [s.lower()]; the case mapping is that of the ASCII letters. *)
Fixpoint lower (s : string) : string :=
  match s with
  | EmptyString => EmptyString
  | String c s' => String (lower_char c) (lower s')
  end.

(** [s.lstrip()] *)
Fixpoint lstrip (s : string) : string :=
  match s with
  | EmptyString => EmptyString
  | String c s' => if is_space c then lstrip s' else s
  end.

(** [s.rstrip()] *)
Fixpoint rstrip (s : string) : string :=
  match s with
  | EmptyString => EmptyString
  | String c s' =>
      match rstrip s' with
      | EmptyString => if is_space c then EmptyString else String c EmptyString
      | r => String c r
      end
  end.

(** [s.strip()] *)
Definition strip (s : string) : string := rstrip (lstrip s).

(** [s.isascii()] *)
Definition is_ascii (s : string) : bool :=
  forallb (fun c => (nat_of_ascii c <? 128)%nat) (list_ascii_of_string s).

(** [x in xs] for a list of [str]. *)
Definition contains (xs : list string) (x : string) : bool :=
  existsb (String.eqb x) xs.

End Py.

(* ===================================================================== *)
(** * Cells, rows and grids *)
(* ===================================================================== *)

(** A decoded cell: [None], a [str], an [int], a [bool] or a [float].
    The code looks at a float only through [bool(value)] and
    [str(value)], so a float cell is given by these two: whether it is
    non-zero, and its text (["5.0"] for the number five).  The empty cell
    is [None] or the empty [str], whichever the decoder yields. *)
Inductive cell : Type :=
| CNone
| CStr (s : string)
| CInt (n : Z)
| CBool (b : bool)
| CFloat (nonzero : bool) (text : string).

Abbreviation row := (list cell).
Abbreviation grid := (list row).

(** [bool(value)] *)
Definition truthy (v : cell) : bool :=
  match v with
  | CNone => false
  | CStr s => negb (s =? "")
  | CInt n => negb (n =? 0)%Z
  | CBool b => b
  | CFloat nonzero _ => nonzero
  end.

(** [value is not None] *)
Definition is_not_none (v : cell) : bool :=
  match v with CNone => false | _ => true end.

(** [str(value)] *)
Definition py_str (v : cell) : string :=
  match v with
  | CNone => "None"
  | CStr s => s
  | CInt n => pretty n
  | CBool true => "True"
  | CBool false => "False"
  | CFloat _ text => text
  end.

(** [bool(expected_keywords)] for [list[str] | None]. *)
Definition keywords_given (expected_keywords : option (list string)) : bool :=
  match expected_keywords with
  | Some (_ :: _) => true
  | _ => false
  end.

(** [all(keyword.lower() in row_values for keyword in expected_keywords)] *)
Definition all_keywords_in (row_values : list string)
    (expected_keywords : option (list string)) : bool :=
  forallb (fun keyword => Py.contains row_values (Py.lower keyword))
          (default [] expected_keywords).

(** The state of the scanning loop when it is left: the two loop
    variables, and whether it was left through the keyword [break]. *)
Record scan_result : Type := mk_scan {
  max_consecutive : nat;
  header_row : nat;
  keyword_hit : bool
}.

(** The exceptions the modelled functions raise.  The [ValueError]s
    are told apart by their message. *)
Inductive error : Type :=
| SelectorConflict
    (* ValueError("sheet_id and sheet_name cannot be both specified.") *)
| WorksheetNotFound
    (* raised by the sheet lookup *)
| AmbiguousMapping (name previous_final final_name : string)
    (* ValueError(f"Ambiguous mapping: '{name}' maps to both
       '{reverse_mapping[key]}' and '{final_name}'") *)
| MultipleColumns (final_name : string)
    (* ValueError(f"Multiple columns map to the same final name '{final_name}'") *)
| DuplicateColumns.
    (* polars' DuplicateError, raised by df.rename *)

Inductive result (A : Type) : Type :=
| Ok (a : A)
| Err (e : error).
Arguments Ok {A} a.
Arguments Err {A} e.

(* ===================================================================== *)
(** * [rpatoolkit/excel/find_header_row.py] *)
(* ===================================================================== *)

Module Excel.

(** A workbook opened by calamine: its sheets, in order, by name. *)
Abbreviation workbook := (list (string * grid)).

Definition get_sheet_by_index (wb : workbook) (i : nat) : result grid :=
  match wb !! i with
  | Some (_, ws) => Ok ws
  | None => Err WorksheetNotFound
  end.

Fixpoint get_sheet_by_name (wb : workbook) (name : string) : result grid :=
  match wb with
  | [] => Err WorksheetNotFound
  | (n, ws) :: wb' => if n =? name then Ok ws else get_sheet_by_name wb' name
  end.

(** [bool(sheet_id)] and [bool(sheet_name)] *)
Definition sheet_id_truthy (sheet_id : option Z) : bool :=
  match sheet_id with Some n => negb (n =? 0)%Z | None => false end.

Definition sheet_name_truthy (sheet_name : option string) : bool :=
  match sheet_name with Some s => negb (s =? "") | None => false end.

(** Lines 51-60: the selector check and the sheet lookup. *)
Definition open_sheet (wb : workbook) (sheet_id : option Z)
    (sheet_name : option string) : result grid :=
  if sheet_id_truthy sheet_id && sheet_name_truthy sheet_name
  then Err SelectorConflict
  else if sheet_id_truthy sheet_id then get_sheet_by_index wb 0
  else if sheet_name_truthy sheet_name
       then get_sheet_by_name wb (default "" sheet_name)
  else get_sheet_by_index wb 0.

(** Lines 81-85: the leading run of truthy cells. *)
Fixpoint consecutive_count (r : row) : nat :=
  match r with
  | [] => 0
  | value :: r' => if truthy value then S (consecutive_count r') else 0
  end.

(** Line 74 *)
Definition row_values (r : row) : list string :=
  map (fun value => Py.lower (Py.strip (py_str value))) (List.filter truthy r).

(** Lines 72-78 *)
Definition is_all_keywords_present (expected_keywords : option (list string))
    (r : row) : bool :=
  if keywords_given expected_keywords
  then all_keywords_in (row_values r) expected_keywords
  else false.

(** Lines 64-95: the loop over [enumerate(ws.iter_rows())], started at
    row [i] with the loop variables [max_consecutive] and [header_row]. *)
Fixpoint loop (max_rows : Z) (expected_keywords : option (list string))
    (rows : grid) (i max_consecutive header_row : nat) : scan_result :=
  match rows with
  | [] => mk_scan max_consecutive header_row false
  | r :: rows' =>
      if (Z.of_nat i >? max_rows)%Z
      then mk_scan max_consecutive header_row false
      else
        let is_all_keywords_present := is_all_keywords_present expected_keywords r in
        let consecutive_count := consecutive_count r in
        if (max_consecutive <? consecutive_count)%nat
        then
          if keywords_given expected_keywords && is_all_keywords_present
          then mk_scan consecutive_count i true
          else loop max_rows expected_keywords rows' (S i) consecutive_count i
        else loop max_rows expected_keywords rows' (S i) max_consecutive header_row
  end.

(** Lines 62-100 on an opened sheet that has rows; on a sheet without
    a cell [ws.iter_rows()] raises instead of yielding no row. *)
Definition header_scan (ws : grid) (max_rows : Z)
    (expected_keywords : option (list string)) : scan_result :=
  loop max_rows expected_keywords ws 0 0 0.

Definition find_header_row (source : workbook) (sheet_id : option Z)
    (sheet_name : option string) (max_rows : Z)
    (expected_keywords : option (list string)) : result nat :=
  match open_sheet source sheet_id sheet_name with
  | Err e => Err e
  | Ok ws => Ok (header_row (header_scan ws max_rows expected_keywords))
  end.

End Excel.

(* ===================================================================== *)
(** * [rpatoolkit/df/read_excel.py] *)
(* ===================================================================== *)

Module Df.

(** [df.head(n)]: the first [n] rows, or all but the last [-n] rows
    when [n] is negative. *)
Definition head (n : Z) (df : grid) : grid :=
  if (0 <=? n)%Z then take (Z.to_nat n) df
  else take (length df - Z.to_nat (- n)) df.

(** Line 82: [value is not None and str(value).strip() != ""] *)
Definition non_blank (value : cell) : bool :=
  is_not_none value && negb (Py.strip (py_str value) =? "").

(** Lines 81-85 *)
Fixpoint consecutive_count (r : row) : nat :=
  match r with
  | [] => 0
  | value :: r' => if non_blank value then S (consecutive_count r') else 0
  end.

(** Lines 73-75 *)
Definition row_values (r : row) : list string :=
  map (fun value => Py.lower (Py.strip (py_str value))) (List.filter is_not_none r).

(** Lines 71-78 *)
Definition all_keywords_present (expected_keywords : option (list string))
    (r : row) : bool :=
  if keywords_given expected_keywords
  then all_keywords_in (row_values r) expected_keywords
  else false.

(** Lines 68-95: the loop over [enumerate(df.rows())]. *)
Fixpoint loop (expected_keywords : option (list string))
    (rows : grid) (i max_consecutive header_row_index : nat) : scan_result :=
  match rows with
  | [] => mk_scan max_consecutive header_row_index false
  | r :: rows' =>
      let all_keywords_present := all_keywords_present expected_keywords r in
      let consecutive_count := consecutive_count r in
      if (max_consecutive <? consecutive_count)%nat
      then
        if keywords_given expected_keywords && all_keywords_present
        then mk_scan consecutive_count i true
        else loop expected_keywords rows' (S i) consecutive_count i
      else loop expected_keywords rows' (S i) max_consecutive header_row_index
  end.

(** Lines 64-100 on the frame returned by [pl.read_excel]. *)
Definition header_scan (df : grid) (max_rows : Z)
    (expected_keywords : option (list string)) : scan_result :=
  loop expected_keywords (head max_rows df) 0 0 0.

(** [read_excel sheet_id sheet_name] stands for the call
    [pl.read_excel(source, sheet_id=.., sheet_name=.., has_header=False, ..)]
    of lines 57-63 on the given source. *)
Definition find_header_row (read_excel : option Z -> option string -> result grid)
    (sheet_id : option Z) (sheet_name : option string) (max_rows : Z)
    (expected_keywords : option (list string)) : result nat :=
  match sheet_id, sheet_name with
  | Some _, Some _ => Err SelectorConflict
  | _, _ =>
      match read_excel sheet_id sheet_name with
      | Err e => Err e
      | Ok df => Ok (header_row (header_scan df max_rows expected_keywords))
      end
  end.

End Df.

(** The two implementations side by side. *)
Inductive variant : Type := ExcelVariant | DfVariant.

Definition header_scan (v : variant) : grid -> Z -> option (list string) -> scan_result :=
  match v with
  | ExcelVariant => Excel.header_scan
  | DfVariant => Df.header_scan
  end.

Definition consecutive_count (v : variant) : row -> nat :=
  match v with
  | ExcelVariant => Excel.consecutive_count
  | DfVariant => Df.consecutive_count
  end.

(** Whether a row contains every keyword, as each implementation decides it. *)
Definition keywords_present (v : variant) : option (list string) -> row -> bool :=
  match v with
  | ExcelVariant => Excel.is_all_keywords_present
  | DfVariant => Df.all_keywords_present
  end.

(** The rows the loop reaches: [Excel] leaves the loop at the first index
    above [max_rows], [Df] scans [df.head(max_rows)]. *)
Definition scanned (v : variant) (max_rows : Z) (rows : grid) : grid :=
  match v with
  | ExcelVariant => take (Z.to_nat (max_rows + 1)) rows
  | DfVariant => Df.head max_rows rows
  end.

(* ===================================================================== *)
(** * The scanning loop, once *)
(* ===================================================================== *)

(** Both loops are the same recursion over the rows they reach; they
    differ in how a row is measured ([count]) and in when a row counts as
    a keyword match ([hit]). *)
Section Scan.

Variable count : row -> nat.
Variable hit : row -> bool.

Fixpoint scan (rows : grid) (i mx hr : nat) : scan_result :=
  match rows with
  | [] => mk_scan mx hr false
  | r :: rows' =>
      if (mx <? count r)%nat
      then if hit r then mk_scan (count r) i true
           else scan rows' (S i) (count r) i
      else scan rows' (S i) mx hr
  end.

(** The running maximum before row [j], starting from [mx]. *)
Definition running_max (mx : nat) (rows : grid) (j : nat) : nat :=
  Nat.max mx (max_list (count <$> take j rows)).

(** Row [j] matches the keywords and strictly improves the running maximum. *)
Definition stops_at (mx : nat) (rows : grid) (j : nat) : Prop :=
  exists r, rows !! j = Some r /\ hit r = true /\ running_max mx rows j < count r.

(** [j] is the first such row. *)
Definition first_stop (mx : nat) (rows : grid) (j : nat) : Prop :=
  stops_at mx rows j /\ forall j', j' < j -> ~ stops_at mx rows j'.

End Scan.

(** The cells whose text takes part in the keyword test: the list
    comprehension that builds [row_values] keeps the truthy cells in
    [Excel] ([if value]) and the cells that are not [None] in [Df]
    ([if value is not None]). *)
Definition cell_is_read (v : variant) : cell -> bool :=
  match v with
  | ExcelVariant => truthy
  | DfVariant => is_not_none
  end.

(** The keyword test, said of the row itself rather than computed: the
    row contains [keyword] when one of the cells read has, once trimmed
    and put in lower case, the text of the keyword in lower case. *)
Definition contains_keyword (v : variant) (r : row) (keyword : string) : Prop :=
  exists value, value ∈ r /\ cell_is_read v value = true
                /\ Py.lower (Py.strip (py_str value)) = Py.lower keyword.

Definition contains_every_keyword (v : variant) (keywords : list string)
    (r : row) : Prop :=
  forall keyword, keyword ∈ keywords -> contains_keyword v r keyword.

(** Row [j] of [rows] contains every keyword and has a longer leading run
    than every row before it. *)
Definition improving_match (v : variant) (keywords : list string)
    (rows : grid) (j : nat) : Prop :=
  exists r, rows !! j = Some r
            /\ contains_every_keyword v keywords r
            /\ running_max (consecutive_count v) 0 rows j < consecutive_count v r.

Definition first_improving_match (v : variant) (keywords : list string)
    (rows : grid) (j : nat) : Prop :=
  improving_match v keywords rows j
  /\ forall j', j' < j -> ~ improving_match v keywords rows j'.

(* ===================================================================== *)
(** * [rpatoolkit/df/utils.py]: [normalize_columns] *)
(* ===================================================================== *)

Module Columns.

(** A value of the mapping: [list[str] | str]. *)
Inductive possible_names : Type :=
| One (name : string)
| Many (names : list string).

(** The mapping, a [dict] in insertion order. *)
Abbreviation mapping := (list (string * possible_names)).

(** Lines 50-51 *)
Definition names_of (p : possible_names) : list string :=
  match p with
  | One name => [name]
  | Many names => names
  end.

(** Lines 53-60: the inner loop over the names of one final name. *)
Fixpoint add_names (final_name : string) (names : list string)
    (reverse_mapping : gmap string string) : result (gmap string string) :=
  match names with
  | [] => Ok reverse_mapping
  | name :: names' =>
      let key := Py.lower name in
      match reverse_mapping !! key with
      | Some previous => Err (AmbiguousMapping name previous final_name)
      | None => add_names final_name names' (<[key := final_name]> reverse_mapping)
      end
  end.

(** Lines 48-60: the outer loop over [mapping.items()]. *)
Fixpoint build_reverse_mapping (m : mapping)
    (reverse_mapping : gmap string string) : result (gmap string string) :=
  match m with
  | [] => Ok reverse_mapping
  | (final_name, possible) :: m' =>
      match add_names final_name (names_of possible) reverse_mapping with
      | Err e => Err e
      | Ok reverse_mapping' => build_reverse_mapping m' reverse_mapping'
      end
  end.

(** Lines 77-88: the loop over [zip(original_cols, normalized_cols)]. *)
Fixpoint assign (reverse_mapping : gmap string string)
    (cols : list (string * string)) (used_final : gset string)
    (rename_dict : gmap string string) : result (gmap string string) :=
  match cols with
  | [] => Ok rename_dict
  | (orig_col, norm_col) :: cols' =>
      let norm_col := Py.lower (Py.strip norm_col) in
      match reverse_mapping !! norm_col with
      | Some final_name =>
          if decide (final_name ∈ used_final)
          then Err (MultipleColumns final_name)
          else assign reverse_mapping cols' ({[final_name]} ∪ used_final)
                 (if decide (orig_col = final_name) then rename_dict
                  else <[orig_col := final_name]> rename_dict)
      | None => assign reverse_mapping cols' used_final rename_dict
      end
  end.

(** [df.rename(rename_dict)] on the column names: the columns named in
    [rename_dict] get their new names at once; polars raises
    [DuplicateError] when two columns bear the same name afterwards. *)
Definition rename (rename_dict : gmap string string) (columns : list string)
    : result (list string) :=
  let renamed := map (fun c => default c (rename_dict !! c)) columns in
  if decide (NoDup renamed) then Ok renamed else Err DuplicateColumns.

Section WithStripPunctuation.

(** [rpatoolkit.utils.strip_punctuation], called with its default
    replacement. *)
Variable strip_punctuation : string -> string.

(** Lines 67-72 *)
Definition normalized_cols (original_cols : list string)
    (remove_punctuation lowercase_columns : bool) : list string :=
  let normalized_cols := original_cols in
  let normalized_cols :=
    if remove_punctuation
    then map (fun c => strip_punctuation (Py.strip c)) normalized_cols
    else normalized_cols in
  if lowercase_columns
  then map (fun c => Py.lower (Py.strip c)) normalized_cols
  else normalized_cols.

(** Lines 48-88: the [rename_dict] built for the columns of [df]. *)
Definition rename_plan (df : list string) (m : mapping)
    (remove_punctuation lowercase_columns : bool) : result (gmap string string) :=
  match build_reverse_mapping m ∅ with
  | Err e => Err e
  | Ok reverse_mapping =>
      assign reverse_mapping
        (zip df (normalized_cols df remove_punctuation lowercase_columns)) ∅ ∅
  end.

(** The frame is represented by its column names. *)
Definition normalize_columns (df : list string) (m : mapping)
    (remove_punctuation lowercase_columns : bool) : result (list string) :=
  match rename_plan df m remove_punctuation lowercase_columns with
  | Err e => Err e
  | Ok rename_dict =>
      if decide (rename_dict = ∅) then Ok df else rename rename_dict df
  end.

End WithStripPunctuation.

(** The key an observed column is looked up under. *)
Definition lookup_key (strip_punctuation : string -> string)
    (remove_punctuation lowercase_columns : bool) (c : string) : string :=
  let n := if remove_punctuation then strip_punctuation (Py.strip c) else c in
  let n := if lowercase_columns then Py.lower (Py.strip n) else n in
  Py.lower (Py.strip n).

(** Every [(key, final_name)] the reverse mapping is built from, in order. *)
Definition alias_pairs (m : mapping) : list (string * string) :=
  '(final_name, possible) ← m;
  (fun name => (Py.lower name, final_name)) <$> names_of possible.

Definition ambiguity (e : error) : bool :=
  match e with
  | AmbiguousMapping _ _ _ => true
  | _ => false
  end.

(** The call failed with the "Ambiguous mapping" error. *)
Definition is_ambiguous {A} (r : result A) : bool :=
  match r with
  | Err e => ambiguity e
  | Ok _ => false
  end.

(** Two outcomes that agree up to the wording of an ambiguity message. *)
Definition same_outcome {A} (r1 r2 : result A) : Prop :=
  r1 = r2 \/ (is_ambiguous r1 = true /\ is_ambiguous r2 = true).

(** The keys of [ps] are pairwise distinct and not yet in [rm]. *)
Definition fresh_keys (ps : list (string * string)) (rm : gmap string string) : Prop :=
  NoDup ps.*1 /\ forall k, k ∈ ps.*1 -> rm !! k = None.

(** [rm'] is [rm] with the pairs [ps] added. *)
Definition extends (rm : gmap string string) (ps : list (string * string))
    (rm' : gmap string string) : Prop :=
  forall k v, rm' !! k = Some v <-> rm !! k = Some v \/ (k, v) ∈ ps.

(** Two different final names claim the same lower-cased name. *)
Definition clash (m : mapping) : Prop :=
  exists f1 p1 f2 p2 n1 n2,
    (f1, p1) ∈ m /\ (f2, p2) ∈ m /\ f1 <> f2 /\
    n1 ∈ names_of p1 /\ n2 ∈ names_of p2 /\ Py.lower n1 = Py.lower n2.

End Columns.

(* ===================================================================== *)
(** * The name normalizer *)
(* ===================================================================== *)

Module Normalizer.

(** Modelled from the spec: the substitution step of
    [rpatoolkit.utils.strip_punctuation], whose source file is not part
    of the sources at hand.  Every maximal run of characters that are
    neither alphanumeric, nor the underscore, nor whitespace is replaced
    by one copy of [replacement]; [in_run] tells whether the previous
    character belonged to the run being replaced. *)
Fixpoint sub_punct_runs (replacement : string) (in_run : bool) (s : string) : string :=
  match s with
  | EmptyString => EmptyString
  | String c s' =>
      if Py.is_punct c
      then (if in_run then sub_punct_runs replacement true s'
            else replacement +:+ sub_punct_runs replacement true s')
      else String c (sub_punct_runs replacement false s')
  end.

(** Modelled from the spec: [rpatoolkit.utils.strip_punctuation(text,
    replacement)], missing from the sources: punctuation runs are
    replaced, then the surrounding whitespace is trimmed. *)
Definition strip_punctuation (text replacement : string) : string :=
  Py.strip (sub_punct_runs replacement false text).

Record options : Type := mk_options {
  fold_case : bool;
  strip_punct : bool;
  replacement : string
}.

(** Modelled from the spec: [normalize(text, {fold_case,
    strip_punctuation, replacement})] of section 4.3, missing from the
    sources: punctuation-fold, case-fold, trim. *)
Definition normalize (o : options) (text : string) : string :=
  let t := if strip_punct o then strip_punctuation text (replacement o) else text in
  let t := if fold_case o then Py.lower t else t in
  Py.strip t.

Definition all_punct (s : string) : bool :=
  forallb Py.is_punct (list_ascii_of_string s).

Definition no_punct (s : string) : bool :=
  forallb (fun c => negb (Py.is_punct c)) (list_ascii_of_string s).

End Normalizer.

(** Modelled from the spec: [strip_punctuation] with its default (empty)
    replacement, the way [normalize_columns] calls it. *)
Definition strip_punctuation_default (text : string) : string :=
  Normalizer.strip_punctuation text "".

(* ===================================================================== *)
(** * Further functions of the three files *)
(* ===================================================================== *)

(** What a call gives: the value returned or the exception raised. *)
Inductive outcome (E A : Type) : Type :=
| Returned (a : A)
| Raised (e : E).
Arguments Returned {E A} a.
Arguments Raised {E A} e.

(** Python sequence indexing with [int] indices. *)
Module PySeq.

(** [l[i]]; [None] stands for [IndexError]. *)
Definition getitem {A} (l : list A) (i : Z) : option A :=
  if (0 <=? i)%Z then l !! Z.to_nat i
  else if (0 <=? Z.of_nat (length l) + i)%Z then l !! Z.to_nat (Z.of_nat (length l) + i)
  else None.

(** [l[k:]] *)
Definition slice_from {A} (l : list A) (k : Z) : list A :=
  if (0 <=? k)%Z then drop (Z.to_nat k) l
  else drop (Z.to_nat (Z.of_nat (length l) + k)) l.

End PySeq.

(** ** [rpatoolkit/df/utils.py]: [reorder_columns], [get_missing_columns]

    A frame is represented by its column names; [df.select(names)] keeps
    the named columns, in the order given. *)
Module Utils.

(** Lines 131-133, where [df.select] returns; polars raises
    [DuplicateError] when [columns_order] names a column of the frame
    twice. *)
Definition reorder_columns (df columns_order : list string) : list string :=
  let selected_cols := List.filter (Py.contains df) columns_order in
  let remaining_cols :=
    List.filter (fun col => negb (Py.contains columns_order col)) df in
  selected_cols ++ remaining_cols.

(** Lines 162-170 *)
Definition get_missing_columns (df required_columns : list string) : list string :=
  let available_columns := map Py.lower df in
  let missing_cols :=
    List.filter (fun col => negb (Py.contains available_columns (Py.lower col)))
                required_columns in
  missing_cols.

End Utils.

(** ** [rpatoolkit/df/read_excel.py]: [read_excel] and its helpers

    A frame is represented by its columns in order, each with its data
    type; the cell data plays no part in these functions. *)
Module ReadExcel.

Section Frames.

(** [pl.DataType] *)
Variable dtype : Type.

(** Lines 243-245, where the assignment to [df.columns] is accepted;
    polars raises [DuplicateError] when two names coincide once trimmed
    and lower-cased. *)
Definition _lower_column_names (df : list (string * dtype)) : list (string * dtype) :=
  map (fun '(col, t) => (Py.lower (Py.strip col), t)) df.

(** [df.with_columns(pl.col(col).cast(dtype, strict=False))] *)
Definition with_cast (col : string) (t : dtype) (df : list (string * dtype))
    : list (string * dtype) :=
  map (fun '(name, d) => if name =? col then (name, t) else (name, d)) df.

(** Lines 252-258: the loop over [cast.items()]. *)
Fixpoint cast_items (items : list (string * dtype)) (df : list (string * dtype))
    : list (string * dtype) :=
  match items with
  | [] => df
  | (col, t) :: items' =>
      let col := Py.lower (Py.strip col) in
      if negb (Py.contains df.*1 col)
      then cast_items items' df
      else cast_items items' (with_cast col t df)
  end.

(** Lines 248-260 *)
Definition _cast_columns (df : list (string * dtype))
    (cast : option (list (string * dtype))) : list (string * dtype) :=
  match cast with
  | Some items => cast_items items df
  | None => df
  end.

(** The data type the items of [cast] give to the column [name]: that of
    the last item whose key, trimmed and lower-cased, is [name]. *)
Fixpoint cast_for (name : string) (items : list (string * dtype)) : option dtype :=
  match items with
  | [] => None
  | (col, t) :: items' =>
      match cast_for name items' with
      | Some t' => Some t'
      | None => if Py.lower (Py.strip col) =? name then Some t else None
      end
  end.

(** Lines 269-272: the loop over the sheets read, in order. *)
Fixpoint read_all_sheets_loop (sheets : list (string * list (string * dtype)))
    (cast : option (list (string * dtype)))
    (result_dfs : gmap string (list (string * dtype)))
    : gmap string (list (string * dtype)) :=
  match sheets with
  | [] => result_dfs
  | (sheet_name, df) :: sheets' =>
      let df := _lower_column_names df in
      let df := _cast_columns df cast in
      read_all_sheets_loop sheets' cast (<[Py.lower sheet_name := df]> result_dfs)
  end.

(** Lines 263-274 *)
Definition _read_all_sheets (df : list (string * list (string * dtype)))
    (cast : option (list (string * dtype))) : gmap string (list (string * dtype)) :=
  read_all_sheets_loop df cast ∅.

(** The values of [read_options], the errors of polars, and the two ways
    [read_excel] calls [pl.read_excel]: for all sheets ([sheet_id=0]) and
    for one sheet, each with the arguments the caller's other options
    fix. *)
Variable any : Type.
Variable int_value : Z -> any.
Variable polars_error : Type.
Variable pl_read_all :
  option (gmap string any) -> outcome polars_error (list (string * list (string * dtype))).
Variable pl_read_one :
  option Z -> option string -> option (gmap string any) ->
  outcome polars_error (list (string * dtype)).

Inductive read_error : Type :=
| BothSelectors    (* ValueError("sheet_id and sheet_name cannot be both specified.") *)
| SheetIdFromOne   (* ValueError("sheet_id must start from 1.") *)
| ReaderError (e : polars_error).

Inductive read_result : Type :=
| OneFrame (df : list (string * dtype))
| FramePerSheet (dfs : gmap string (list (string * dtype))).

(** Lines 200-206: [read_options] as handed to the reader. *)
Definition with_header_row (header_row : option Z)
    (read_options : option (gmap string any)) : option (gmap string any) :=
  match header_row with
  | None => read_options
  | Some h =>
      if (h =? 0)%Z then read_options
      else match read_options with
           | Some options => Some (<["header_row" := int_value h]> options)
           | None => Some {["header_row" := int_value h]}
           end
  end.

(** Lines 194-240 *)
Definition read_excel (sheet_id : option Z) (sheet_name : option string)
    (read_options : option (gmap string any)) (header_row : option Z)
    (cast : option (list (string * dtype))) (read_all_sheets : bool)
    : outcome read_error read_result :=
  match sheet_id, sheet_name with
  | Some _, Some _ => Raised BothSelectors
  | _, _ =>
      if bool_decide (sheet_id = Some 0%Z) then Raised SheetIdFromOne
      else
        let read_options := with_header_row header_row read_options in
        if read_all_sheets
        then match pl_read_all read_options with
             | Raised e => Raised (ReaderError e)
             | Returned df => Returned (FramePerSheet (_read_all_sheets df cast))
             end
        else match pl_read_one sheet_id sheet_name read_options with
             | Raised e => Raised (ReaderError e)
             | Returned df =>
                 let df := _lower_column_names df in
                 let df := _cast_columns df cast in
                 Returned (OneFrame df)
             end
  end.

End Frames.

Arguments _lower_column_names {dtype} df.
Arguments with_cast {dtype} col t df.
Arguments cast_items {dtype} items df.
Arguments _cast_columns {dtype} df cast.
Arguments cast_for {dtype} name items.
Arguments read_all_sheets_loop {dtype} sheets cast result_dfs.
Arguments _read_all_sheets {dtype} df cast.
Arguments with_header_row {any} int_value header_row read_options.
Arguments read_excel {dtype any} int_value {polars_error} pl_read_all pl_read_one
  sheet_id sheet_name read_options header_row cast read_all_sheets.
Arguments BothSelectors {polars_error}.
Arguments SheetIdFromOne {polars_error}.
Arguments ReaderError {polars_error} e.
Arguments OneFrame {dtype} df.
Arguments FramePerSheet {dtype} dfs.

(** Some polars data types, for examples. *)
Inductive sample_dtype : Type := Utf8 | Int64 | Float64 | Date.

End ReadExcel.

(** ** [rpatoolkit/excel/read_excel_sheet.py]: [_read_visible_rows_from_sheet] *)
Module ReadExcelSheet.

(** A row of an openpyxl worksheet: the [hidden] flag of its row
    dimension and the values of its cells. *)
Record sheet_row : Type := mk_sheet_row {
  hidden : bool;
  values : list cell
}.

Inductive error : Type :=
| SheetNotFound (sheet_name : string)
    (* ValueError(f"Sheet '{sheet_name}' not found in workbook.") *)
| HeaderRowOutOfBounds (header_row : option Z)
    (* ValueError(f"header_row index: '{header_row}' out of bounds") *)
| IndexError.

(** [bool(header_row)] *)
Definition header_row_truthy (header_row : option Z) : bool :=
  match header_row with Some n => negb (n =? 0)%Z | None => false end.

(** Line 131: [cell.value if cell.value != "" else None] *)
Definition blank_to_none (value : cell) : cell :=
  match value with
  | CStr "" => CNone
  | _ => value
  end.

(** Lines 124-132 *)
Fixpoint visible_rows (ws : list sheet_row) : list (list cell) :=
  match ws with
  | [] => []
  | r :: ws' =>
      if hidden r then visible_rows ws'
      else map blank_to_none (values r) :: visible_rows ws'
  end.

(** [wb[sheet_name]]: the first sheet of that title, if any. *)
Fixpoint sheet_by_title (wb : list (string * list sheet_row)) (title : string)
    : option (list sheet_row) :=
  match wb with
  | [] => None
  | (t, ws) :: wb' => if t =? title then Some ws else sheet_by_title wb' title
  end.

(** Lines 115-122 *)
Definition select_sheet (wb : list (string * list sheet_row))
    (sheet_name : option string) : outcome error (list sheet_row) :=
  if Excel.sheet_name_truthy sheet_name
  then match sheet_by_title wb (default "" sheet_name) with
       | Some ws => Returned ws
       | None => Raised (SheetNotFound (default "" sheet_name))
       end
  else match wb with
       | (_, ws) :: _ => Returned ws
       | [] => Raised IndexError
       end.

Section Frames.

(** polars, as far as the function uses it: the type of frames, the
    frame [pl.DataFrame()], and the call
    [pl.DataFrame(data, schema=headers, strict=False)], which gives a
    frame or raises an exception of its own. *)
Variable frame : Type.
Variable polars_error : Type.
Variable empty_frame : frame.
Variable new_frame : list (list cell) -> list cell -> outcome polars_error frame.

(** What is raised is an exception of the function itself ([inl]) or
    one that comes out of [pl.DataFrame] ([inr]). *)
Definition from_polars (built : outcome polars_error frame)
    : outcome (error + polars_error) frame :=
  match built with
  | Returned df => Returned df
  | Raised e => Raised (inr e)
  end.

(** Lines 106-149 *)
Definition _read_visible_rows_from_sheet (source : list (string * list sheet_row))
    (sheet_name : option string) (header_row : option Z)
    : outcome (error + polars_error) frame :=
  match select_sheet source sheet_name with
  | Raised e => Raised (inl e)
  | Returned ws =>
      let visible_rows := visible_rows ws in
      match visible_rows with
      | [] => Returned empty_frame
      | _ :: _ =>
          let idx := if header_row_truthy header_row
                     then default 0%Z header_row else 0%Z in
          if (idx >=? Z.of_nat (length visible_rows))%Z
          then Raised (inl (HeaderRowOutOfBounds header_row))
          else match PySeq.getitem visible_rows idx with
               | None => Raised (inl IndexError)
               | Some headers =>
                   let data := PySeq.slice_from visible_rows (idx + 1) in
                   from_polars (new_frame data headers)
               end
      end
  end.

End Frames.

Arguments from_polars {frame polars_error} built.
Arguments _read_visible_rows_from_sheet {frame polars_error} empty_frame new_frame
  source sheet_name header_row.

(** A stand-in for polars in the examples: a frame is the column names
    and the rows it was built from, and a header row is refused when one
    of its cells is not a text. *)
Inductive sample_error : Type := HeaderNotText.

Fixpoint header_names (headers : list cell) : option (list string) :=
  match headers with
  | [] => Some []
  | CStr name :: headers' =>
      match header_names headers' with
      | Some names => Some (name :: names)
      | None => None
      end
  | _ :: _ => None
  end.

Definition sample_new_frame (data : list (list cell)) (headers : list cell)
    : outcome sample_error (list string * list (list cell)) :=
  match header_names headers with
  | Some names => Returned (names, data)
  | None => Raised HeaderNotText
  end.

End ReadExcelSheet.

(* ===================================================================== *)
(** * Facts about the scanning loop *)
(* ===================================================================== *)

Section ScanFacts.

Variable count : row -> nat.
Variable hit : row -> bool.

Local Abbreviation scan := (scan count hit).
Local Abbreviation running_max := (running_max count).
Local Abbreviation stops_at := (stops_at count hit).
Local Abbreviation first_stop := (first_stop count hit).

Lemma scan_cons r rows i mx hr :
  scan (r :: rows) i mx hr =
  if (mx <? count r)%nat && hit r then mk_scan (count r) i true
  else scan rows (S i) (Nat.max mx (count r)) (if (mx <? count r)%nat then i else hr).
Proof.
  simpl. destruct (Nat.ltb_spec mx (count r)); simpl.
  - destruct (hit r); [done|]. by rewrite Nat.max_r by lia.
  - by rewrite Nat.max_l by lia.
Qed.

Lemma stops_at_0 mx r rows :
  stops_at mx (r :: rows) 0 <-> hit r = true /\ mx < count r.
Proof.
  unfold stops_at, running_max. simpl. rewrite Nat.max_0_r. split.
  - intros (r' & [= <-] & ? & ?). done.
  - intros [? ?]. exists r. done.
Qed.

Lemma stops_at_S mx r rows j :
  stops_at mx (r :: rows) (S j) <-> stops_at (Nat.max mx (count r)) rows j.
Proof.
  unfold stops_at, running_max. simpl.
  rewrite Nat.max_assoc. done.
Qed.

Lemma first_stop_S mx r rows j :
  ~ stops_at mx (r :: rows) 0 ->
  first_stop mx (r :: rows) (S j) <-> first_stop (Nat.max mx (count r)) rows j.
Proof.
  intros H0. unfold first_stop. rewrite stops_at_S. split.
  - intros [Hs Hn]. split; [done|]. intros j' Hj' Hs'.
    apply (Hn (S j')); [lia|]. by apply stops_at_S.
  - intros [Hs Hn]. split; [done|]. intros [|j'] Hj'; [done|].
    rewrite stops_at_S. apply Hn. lia.
Qed.

(** A keyword exit happens at a row of the list. *)
Lemma scan_hit_range rows i mx hr :
  keyword_hit (scan rows i mx hr) = true ->
  i <= header_row (scan rows i mx hr) < i + length rows.
Proof.
  revert i mx hr. induction rows as [|r rows IH]; intros i mx hr; [done|].
  rewrite scan_cons. destruct ((mx <? count r)%nat && hit r); simpl.
  - lia.
  - intros H. apply IH in H. lia.
Qed.

(** The loop leaves through the keyword exit with candidate [i + n]
    exactly when [n] is the first keyword row improving the maximum. *)
Lemma scan_hit_iff rows i mx hr n :
  keyword_hit (scan rows i mx hr) = true /\ header_row (scan rows i mx hr) = i + n
  <-> first_stop mx rows n.
Proof.
  revert i mx hr n. induction rows as [|r rows IH]; intros i mx hr n.
  - simpl. split; [intros [? _]; done|]. intros [(r & Hr & _) _]. done.
  - rewrite scan_cons.
    destruct ((mx <? count r)%nat && hit r) eqn:E; simpl.
    + assert (H0 : stops_at mx (r :: rows) 0).
      { apply stops_at_0. apply andb_true_iff in E as [E1 E2].
        apply Nat.ltb_lt in E1. done. }
      split.
      * intros [_ Hn]. assert (n = 0) as -> by lia.
        split; [done|]. intros j' Hj'. lia.
      * intros [_ Hn]. destruct n as [|n]; [split; [done|lia]|].
        exfalso. apply (Hn 0); [lia|done].
    + assert (H0 : ~ stops_at mx (r :: rows) 0).
      { rewrite stops_at_0. intros [E2 E1%Nat.ltb_lt].
        rewrite E1, E2 in E. done. }
      destruct n as [|n].
      * split.
        -- intros [Hh Hn]. apply scan_hit_range in Hh. lia.
        -- intros [Hs _]. done.
      * rewrite first_stop_S by done. rewrite <- (IH (S i)).
        replace (i + S n) with (S i + n) by lia. done.
Qed.

(** Nothing after a keyword exit is looked at. *)
Lemma scan_app_hit pre post i mx hr :
  keyword_hit (scan pre i mx hr) = true ->
  scan (pre ++ post) i mx hr = scan pre i mx hr.
Proof.
  revert i mx hr. induction pre as [|r pre IH]; intros i mx hr; [done|].
  rewrite <- app_comm_cons, !scan_cons.
  destruct ((mx <? count r)%nat && hit r); [done|]. apply IH.
Qed.

(** Rows that do not exceed the running maximum change nothing. *)
Lemma scan_no_improve rows i mx hr :
  (forall r, r ∈ rows -> count r <= mx) ->
  scan rows i mx hr = mk_scan mx hr false.
Proof.
  revert i. induction rows as [|r rows IH]; intros i H; [done|].
  simpl. destruct (Nat.ltb_spec mx (count r)) as [Hlt|_].
  - specialize (H r ltac:(left)). lia.
  - apply IH. intros r' Hr'. apply H. by right.
Qed.

(** Without keyword matches, the first row that reaches the greatest
    count becomes the candidate and stays it: earlier rows are strictly
    narrower, later rows are not wider. *)
Lemma scan_first_widest rows i mx hr k rk :
  (forall r, r ∈ rows -> hit r = false) ->
  rows !! k = Some rk ->
  mx < count rk ->
  (forall j r, j < k -> rows !! j = Some r -> count r < count rk) ->
  (forall j r, k < j -> rows !! j = Some r -> count r <= count rk) ->
  scan rows i mx hr = mk_scan (count rk) (i + k) false.
Proof.
  revert i mx hr k. induction rows as [|r rows IH]; intros i mx hr k Hh Hk Hmx Hlt Hle; [done|].
  assert (Hhr : hit r = false) by (apply Hh; left).
  destruct k as [|k]; simpl in Hk.
  - injection Hk as ->. simpl.
    destruct (Nat.ltb_spec mx (count rk)); [|lia]. rewrite Hhr.
    rewrite Nat.add_0_r. apply scan_no_improve.
    intros r' [j Hj]%list_elem_of_lookup.
    apply (Hle (S j)); [lia|done].
  - assert (Hr : count r < count rk) by (apply (Hlt 0); [lia|done]).
    assert (Hrest : forall r0, r0 ∈ rows -> hit r0 = false)
      by (intros r0 Hr0; apply Hh; by right).
    assert (Hlt' : forall j r0, j < k -> rows !! j = Some r0 -> count r0 < count rk).
    { intros j r0 Hj Hr0. apply (Hlt (S j)); [lia|done]. }
    assert (Hle' : forall j r0, k < j -> rows !! j = Some r0 -> count r0 <= count rk).
    { intros j r0 Hj Hr0. apply (Hle (S j)); [lia|done]. }
    simpl. replace (i + S k) with (S i + k) by lia.
    destruct (Nat.ltb_spec mx (count r)).
    + rewrite Hhr. by apply IH.
    + by apply IH.
Qed.

(** The candidate is the initial one or a row of the list. *)
Lemma scan_header_range rows i mx hr :
  header_row (scan rows i mx hr) = hr \/
  i <= header_row (scan rows i mx hr) < i + length rows.
Proof.
  revert i mx hr. induction rows as [|r rows IH]; intros i mx hr; [by left|].
  rewrite scan_cons. destruct ((mx <? count r)%nat && hit r); simpl; [right; lia|].
  destruct (IH (S i) (Nat.max mx (count r)) (if (mx <? count r)%nat then i else hr)) as [->|H].
  - destruct (mx <? count r)%nat; [right; lia|by left].
  - right. lia.
Qed.

(** A keyword exit at row [n] depends on the rows up to [n] only. *)
Lemma scan_take_hit rows i mx hr n :
  keyword_hit (scan rows i mx hr) = true ->
  header_row (scan rows i mx hr) = i + n ->
  scan (take (S n) rows) i mx hr = scan rows i mx hr.
Proof.
  revert i mx hr n. induction rows as [|r rows IH]; intros i mx hr n; [done|].
  cbn [take]. rewrite !scan_cons.
  destruct ((mx <? count r)%nat && hit r); [done|].
  intros Hh Hn. pose proof (scan_hit_range _ _ _ _ Hh) as Hr.
  destruct n as [|n]; [lia|].
  apply IH; [done|lia].
Qed.

End ScanFacts.

(** ** The two loops are instances of [scan] *)

Lemma keywords_given_and_present kw (b : bool) :
  keywords_given kw && (if keywords_given kw then b else false)
  = (if keywords_given kw then b else false).
Proof. by destruct (keywords_given kw). Qed.

Lemma excel_loop_scan max_rows kw rows i mx hr :
  Excel.loop max_rows kw rows i mx hr
  = scan Excel.consecutive_count (Excel.is_all_keywords_present kw)
         (take (Z.to_nat (max_rows + 1 - Z.of_nat i)) rows) i mx hr.
Proof.
  revert i mx hr. induction rows as [|r rows IH]; intros i mx hr.
  - by rewrite take_nil.
  - cbn [Excel.loop]. destruct (Z.gtb_spec (Z.of_nat i) max_rows) as [Hgt|Hle].
    + replace (Z.to_nat (max_rows + 1 - Z.of_nat i)) with 0 by lia. done.
    + replace (Z.to_nat (max_rows + 1 - Z.of_nat i))
        with (S (Z.to_nat (max_rows + 1 - Z.of_nat (S i)))) by lia.
      cbn [take scan]. unfold Excel.is_all_keywords_present at 1.
      rewrite keywords_given_and_present.
      fold (Excel.is_all_keywords_present kw r). by rewrite !IH.
Qed.

Lemma df_loop_scan kw rows i mx hr :
  Df.loop kw rows i mx hr
  = scan Df.consecutive_count (Df.all_keywords_present kw) rows i mx hr.
Proof.
  revert i mx hr. induction rows as [|r rows IH]; intros i mx hr; [done|].
  cbn [Df.loop scan]. unfold Df.all_keywords_present at 1.
  rewrite keywords_given_and_present.
  fold (Df.all_keywords_present kw r). by rewrite !IH.
Qed.

Lemma header_scan_scan v rows max_rows kw :
  header_scan v rows max_rows kw
  = scan (consecutive_count v) (keywords_present v kw) (scanned v max_rows rows) 0 0 0.
Proof.
  destruct v; simpl.
  - unfold Excel.header_scan. rewrite excel_loop_scan.
    by replace (max_rows + 1 - Z.of_nat 0)%Z with (max_rows + 1)%Z by lia.
  - unfold Df.header_scan. apply df_loop_scan.
Qed.

Lemma keywords_present_none v kw r :
  keywords_given kw = false -> keywords_present v kw r = false.
Proof.
  intros H. destruct v; simpl;
    unfold Excel.is_all_keywords_present, Df.all_keywords_present; by rewrite H.
Qed.

Lemma keywords_present_spec v kw r :
  keywords_given kw = true ->
  keywords_present v kw r = true <->
  forall keyword, keyword ∈ default [] kw ->
    Py.lower keyword ∈ (match v with
                        | ExcelVariant => Excel.row_values r
                        | DfVariant => Df.row_values r
                        end).
Proof.
  intros Hkw.
  assert (Hc : forall xs x, Py.contains xs x = true <-> x ∈ xs).
  { intros xs x. unfold Py.contains. rewrite existsb_exists. split.
    - intros (y & Hy & ->%String.eqb_eq). by apply list_elem_of_In.
    - intros Hx. exists x. split; [by apply list_elem_of_In|apply String.eqb_refl]. }
  destruct v; simpl; unfold Excel.is_all_keywords_present, Df.all_keywords_present;
    rewrite Hkw; unfold all_keywords_in; rewrite forallb_forall;
    split; intros H k Hk.
  - apply Hc, H. by apply list_elem_of_In.
  - apply Hc, H. by apply list_elem_of_In.
  - apply Hc, H. by apply list_elem_of_In.
  - apply Hc, H. by apply list_elem_of_In.
Qed.

(* ===================================================================== *)
(** * The header locator *)
(* ===================================================================== *)

(** What [find_header_row] returns is the candidate of the scan of the
    sheet it opened. *)
Lemma excel_find_header_row_scan source sheet_id sheet_name max_rows kw ws :
  Excel.open_sheet source sheet_id sheet_name = Ok ws ->
  Excel.find_header_row source sheet_id sheet_name max_rows kw
  = Ok (header_row (header_scan ExcelVariant ws max_rows kw)).
Proof. intros H. unfold Excel.find_header_row. by rewrite H. Qed.

Lemma df_find_header_row_scan read_excel sheet_id sheet_name max_rows kw df :
  ~ (is_Some sheet_id /\ is_Some sheet_name) ->
  read_excel sheet_id sheet_name = Ok df ->
  Df.find_header_row read_excel sheet_id sheet_name max_rows kw
  = Ok (header_row (header_scan DfVariant df max_rows kw)).
Proof.
  intros Hsel H. unfold Df.find_header_row. rewrite H.
  destruct sheet_id, sheet_name; try done. exfalso. apply Hsel. split; by eexists.
Qed.

(** Tie-break: with no keywords, the locator returns the first scanned row
    that reaches the greatest count. *)
Lemma first_widest_row_is_returned (v : variant) (rows : grid) (max_rows : Z)
    (kw : option (list string)) (k : nat) (rk : row) :
  keywords_given kw = false ->
  scanned v max_rows rows !! k = Some rk ->
  0 < consecutive_count v rk ->
  (forall j r, j < k -> scanned v max_rows rows !! j = Some r ->
     consecutive_count v r < consecutive_count v rk) ->
  (forall j r, k < j -> scanned v max_rows rows !! j = Some r ->
     consecutive_count v r <= consecutive_count v rk) ->
  header_scan v rows max_rows kw = mk_scan (consecutive_count v rk) k false.
Proof.
  intros Hkw Hk Hpos Hlt Hle. rewrite header_scan_scan.
  rewrite (scan_first_widest _ _ _ 0 0 0 k rk); try done.
  intros r _. by apply keywords_present_none.
Qed.



(** C2. On the grid whose row 0 is the banner ["Report","","",""] and
    whose row 1 is the header ["po number","qty","date"], with keywords
    ["po number"], both implementations return row 1: row 1 improves on
    the banner's count of 1 and holds the keyword, so the loop is left
    there. *)
Theorem banner_then_header_returns_1 :
  let g := [[CStr "Report"; CStr ""; CStr ""; CStr ""];
            [CStr "po number"; CStr "qty"; CStr "date"]] in
  (forall v, header_scan v g 200 (Some ["po number"]) = mk_scan 3 1 true)
  /\ Excel.find_header_row [("Sheet1", g)] None None 200 (Some ["po number"]) = Ok 1
  /\ Df.find_header_row (fun _ _ => Ok g) None None 200 (Some ["po number"]) = Ok 1.
Proof.
  split; [|split].
  - intros []; vm_compute; reflexivity.
  - vm_compute; reflexivity.
  - vm_compute; reflexivity.
Qed.

(** The keyword test of either loop is the test said of the row. *)
Lemma keywords_present_contains (v : variant) (keywords : list string) (r : row) :
  keywords <> [] ->
  keywords_present v (Some keywords) r = true <-> contains_every_keyword v keywords r.
Proof.
  intros Hne. rewrite keywords_present_spec by (by destruct keywords).
  unfold contains_every_keyword, contains_keyword. simpl.
  split; intros H keyword Hk; specialize (H keyword Hk).
  - destruct v; unfold Excel.row_values, Df.row_values in H;
      apply list_elem_of_In, in_map_iff in H as (value & Heq & Hin);
      apply filter_In in Hin as [Hin Hread];
      exists value; (split; [by apply list_elem_of_In|done]).
  - destruct H as (value & Hin & Hread & Heq).
    destruct v; unfold Excel.row_values, Df.row_values;
      apply list_elem_of_In, in_map_iff; exists value;
      (split; [done|]); apply filter_In; (split; [by apply list_elem_of_In|done]).
Qed.

Lemma stops_at_improving_match (v : variant) (keywords : list string)
    (rows : grid) (j : nat) :
  keywords <> [] ->
  stops_at (consecutive_count v) (keywords_present v (Some keywords)) 0 rows j
  <-> improving_match v keywords rows j.
Proof.
  intros Hne. unfold stops_at, improving_match.
  split; intros (r & Hr & Hhit & Hlt); exists r; (split; [done|]); (split; [|done]);
    by apply (keywords_present_contains v keywords r Hne).
Qed.

Lemma first_stop_first_improving_match (v : variant) (keywords : list string)
    (rows : grid) (j : nat) :
  keywords <> [] ->
  first_stop (consecutive_count v) (keywords_present v (Some keywords)) 0 rows j
  <-> first_improving_match v keywords rows j.
Proof.
  intros Hne. unfold first_stop, first_improving_match.
  rewrite (stops_at_improving_match v keywords rows j Hne).
  split; intros [Hj Hfirst]; (split; [done|]); intros j' Hj' Hstop;
    apply (Hfirst j' Hj'); by apply (stops_at_improving_match v keywords rows j' Hne).
Qed.



(** C4. The two implementations are not the same function: a cell holding
    the number 0 or the boolean False ends the leading run for [Excel]
    and continues it for [Df], and there are grids on which the two return
    different rows. *)
Theorem implementations_disagree :
  (exists (rows : grid) (max_rows : Z) (kw : option (list string)),
      header_row (Excel.header_scan rows max_rows kw)
      <> header_row (Df.header_scan rows max_rows kw))
  /\ header_scan ExcelVariant <> header_scan DfVariant
  /\ (Excel.consecutive_count [CInt 0; CStr "y"] = 0
      /\ Df.consecutive_count [CInt 0; CStr "y"] = 2)
  /\ (Excel.consecutive_count [CBool false; CStr "y"] = 0
      /\ Df.consecutive_count [CBool false; CStr "y"] = 2)
  /\ (header_row (Excel.header_scan [[CStr "x"]; [CInt 0; CStr "y"]] 200 None) = 0
      /\ header_row (Df.header_scan [[CStr "x"]; [CInt 0; CStr "y"]] 200 None) = 1)
  /\ (header_row (Excel.header_scan [[CStr "x"]; [CBool false; CStr "y"]] 200 None) = 0
      /\ header_row (Df.header_scan [[CStr "x"]; [CBool false; CStr "y"]] 200 None) = 1).
Proof.
  split; [|split; [|repeat split; vm_compute; reflexivity]].
  - exists [[CStr "x"]; [CInt 0; CStr "y"]], 200%Z, None. vm_compute. lia.
  - intros Heq.
    assert (H : header_scan ExcelVariant [[CStr "x"]; [CInt 0; CStr "y"]] 200 None
                = header_scan DfVariant [[CStr "x"]; [CInt 0; CStr "y"]] 200 None)
      by (by rewrite Heq).
    vm_compute in H. discriminate H.
Qed.

(** [Df] keeps to its window: for [max_rows >= 1] the returned index is
    below [max_rows], and rows from index [max_rows] on do not matter. *)
Lemma df_scan_keeps_to_window (df : grid) (max_rows : Z) (kw : option (list string)) :
  (1 <= max_rows)%Z ->
  header_row (Df.header_scan df max_rows kw) < Z.to_nat max_rows
  /\ forall df', take (Z.to_nat max_rows) df' = take (Z.to_nat max_rows) df ->
       Df.header_scan df' max_rows kw = Df.header_scan df max_rows kw.
Proof.
  intros Hm. unfold Df.header_scan, Df.head.
  destruct (Z.leb_spec 0 max_rows) as [_|]; [|lia]. split.
  - rewrite df_loop_scan.
    destruct (scan_header_range Df.consecutive_count (Df.all_keywords_present kw)
                (take (Z.to_nat max_rows) df) 0 0 0) as [->|[_ H]]; [lia|].
    rewrite length_take in H. lia.
  - intros df' ->. done.
Qed.

(** C5. [Excel] leaves its loop at the first index above [max_rows], so
    it scans the row at index [max_rows] too: with [max_rows = 1] and a
    grid whose second row is the wider one it returns index 1, which is
    not below [max_rows], and the result changes when that row is
    removed.  [Df] returns 0 on the same input. *)
Theorem excel_scans_row_at_max_rows :
  let g := [[CStr ""]; [CStr "a"]] in
  Excel.find_header_row [("Sheet1", g)] None None 1 None = Ok 1
  /\ Excel.find_header_row [("Sheet1", take 1 g)] None None 1 None = Ok 0
  /\ Df.find_header_row (fun _ _ => Ok g) None None 1 None = Ok 0.
Proof. repeat split; vm_compute; reflexivity. Qed.

(** C9. In [Excel.find_header_row] a non-zero [sheet_id] selects the sheet
    at index 0: the outcome is the scan of that sheet (or the selector
    conflict when a sheet name is given too) and does not depend on the
    value of [sheet_id].  A [sheet_id] of 0 behaves as no [sheet_id] at
    all, also in the check against giving both selectors. *)
Theorem excel_sheet_id_is_ignored (wb : Excel.workbook) (sheet_id : Z)
    (sheet_name : option string) (max_rows : Z) (kw : option (list string)) :
  sheet_id <> 0%Z ->
  Excel.find_header_row wb (Some sheet_id) sheet_name max_rows kw
  = (if Excel.sheet_name_truthy sheet_name then Err SelectorConflict
     else match Excel.get_sheet_by_index wb 0 with
          | Ok ws => Ok (header_row (Excel.header_scan ws max_rows kw))
          | Err e => Err e
          end)
  /\ Excel.find_header_row wb (Some sheet_id) None max_rows kw
     = Excel.find_header_row wb None None max_rows kw
  /\ Excel.find_header_row wb (Some 0%Z) sheet_name max_rows kw
     = Excel.find_header_row wb None sheet_name max_rows kw.
Proof.
  intros Hne. unfold Excel.find_header_row, Excel.open_sheet. simpl.
  destruct (Z.eqb_spec sheet_id 0) as [|_]; [done|]. simpl.
  repeat split. by destruct (Excel.sheet_name_truthy sheet_name).
Qed.

Lemma excel_sheet_id_is_ignored_witness :
  let wb := [("Summary", [[CStr "Totals"]; [CStr "a"; CStr "b"]]);
             ("Data", [[CStr "id"; CStr "qty"]; [CInt 1; CInt 2]])] in
  Excel.find_header_row wb (Some 1%Z) None 200 None = Ok 1
  /\ Excel.find_header_row wb None (Some "Data") 200 None = Ok 0.
Proof.
  intros wb. split.
  - destruct (excel_sheet_id_is_ignored wb 1 None 200 None ltac:(lia)) as (-> & _).
    reflexivity.
  - reflexivity.
Defined.

(* ===================================================================== *)
(** * The column reconciler *)
(* ===================================================================== *)

Module ColumnsFacts.
Import Columns.

Lemma alias_pairs_cons f p (m : mapping) :
  alias_pairs ((f, p) :: m)
  = ((fun name => (Py.lower name, f)) <$> names_of p) ++ alias_pairs m.
Proof. reflexivity. Qed.

Lemma elem_of_alias_pairs k v (m : mapping) :
  (k, v) ∈ alias_pairs m <->
  exists p n, (v, p) ∈ m /\ n ∈ names_of p /\ k = Py.lower n.
Proof.
  unfold alias_pairs. rewrite list_elem_of_bind. split.
  - intros ([f p] & Hin & Hm). apply list_elem_of_fmap in Hin as (n & [= -> ->] & Hn).
    by exists p, n.
  - intros (p & n & Hm & Hn & ->). exists (v, p). split; [|done].
    apply list_elem_of_fmap. by exists n.
Qed.

Lemma add_names_spec f names rm :
  let ps := (fun name => (Py.lower name, f)) <$> names in
  match add_names f names rm with
  | Ok rm' => fresh_keys ps rm /\ extends rm ps rm'
  | Err e => ambiguity e = true /\ ~ fresh_keys ps rm
  end.
Proof.
  unfold fresh_keys, extends.
  revert rm. induction names as [|n names IH]; intros rm; simpl.
  - split.
    + split; [constructor|]. intros k Hk. by apply elem_of_nil in Hk.
    + intros k v. split; [by left|]. intros [?|Hk]; [done|]. by apply elem_of_nil in Hk.
  - destruct (rm !! Py.lower n) as [prev|] eqn:Hn.
    + split; [done|]. intros [_ Hf]. rewrite Hf in Hn; [done|]. simpl. by left.
    + specialize (IH (<[Py.lower n := f]> rm)). simpl in IH.
      destruct (add_names f names (<[Py.lower n := f]> rm)) as [rm'|e].
      * destruct IH as [[Hnd Hf] Hext]. split; [split|].
        -- simpl. constructor; [|done]. intros Hin. apply Hf in Hin.
           by rewrite lookup_insert_eq in Hin.
        -- simpl. intros k [->|Hk]%elem_of_cons; [done|].
           apply Hf in Hk. by apply lookup_insert_None in Hk as [? _].
        -- intros k v. rewrite Hext, lookup_insert_Some, elem_of_cons. split.
           ++ intros [[[<- <-]|[_ ?]]|?]; auto.
           ++ intros [Hrm|[[= -> ->]|?]]; auto.
              destruct (decide (Py.lower n = k)) as [<-|]; [congruence|auto].
      * destruct IH as [Ha Hnf]. split; [done|]. intros [Hnd Hf].
        apply Hnf. simpl in Hnd. apply NoDup_cons in Hnd as [Hnin Hnd].
        split; [done|]. intros k Hk. apply lookup_insert_None. split.
        -- apply Hf. simpl. by right.
        -- intros Heq. subst k. done.
Qed.

Lemma build_reverse_mapping_spec (m : mapping) rm :
  match build_reverse_mapping m rm with
  | Ok rm' => fresh_keys (alias_pairs m) rm /\ extends rm (alias_pairs m) rm'
  | Err e => ambiguity e = true /\ ~ fresh_keys (alias_pairs m) rm
  end.
Proof.
  unfold fresh_keys, extends.
  revert rm. induction m as [|[f p] m IH]; intros rm.
  - simpl. split.
    + split; [constructor|]. intros k Hk. by apply elem_of_nil in Hk.
    + intros k v. split; [by left|]. intros [?|Hk]; [done|]. by apply elem_of_nil in Hk.
  - rewrite alias_pairs_cons. cbn [build_reverse_mapping].
    pose proof (add_names_spec f (names_of p) rm) as Ha.
    unfold fresh_keys, extends in Ha. simpl in Ha.
    set (ps1 := (fun name => (Py.lower name, f)) <$> names_of p) in *.
    destruct (add_names f (names_of p) rm) as [rm1|e].
    + destruct Ha as [[Hnd1 Hf1] Hext1]. specialize (IH rm1).
      destruct (build_reverse_mapping m rm1) as [rm'|e].
      * destruct IH as [[Hnd2 Hf2] Hext2]. split; [split|].
        -- rewrite fmap_app. apply NoDup_app. split; [done|split; [|done]].
           intros k Hk1 Hk2. apply Hf2 in Hk2.
           apply list_elem_of_fmap in Hk1 as ([k' v] & -> & Hkv).
           assert (rm1 !! k' = Some v) by (apply Hext1; by right).
           simpl in Hk2. congruence.
        -- rewrite fmap_app. intros k [Hk|Hk]%elem_of_app; [by apply Hf1|].
           apply Hf2 in Hk. destruct (rm !! k) as [v|] eqn:E; [|done].
           assert (rm1 !! k = Some v) by (apply Hext1; by left). congruence.
        -- intros k v. rewrite Hext2, Hext1, elem_of_app. tauto.
      * destruct IH as [Ha Hnf]. split; [done|]. intros [Hnd Hf].
        apply Hnf. rewrite fmap_app in Hnd, Hf.
        apply NoDup_app in Hnd as (_ & Hdis & Hnd2). split; [done|].
        intros k Hk. destruct (rm1 !! k) as [v|] eqn:E; [|done].
        apply Hext1 in E as [E|E].
        -- rewrite Hf in E; [done|]. apply elem_of_app. by right.
        -- exfalso. apply (Hdis k); [|done].
           apply list_elem_of_fmap. by exists (k, v).
    + destruct Ha as [Ha Hnf]. split; [done|]. intros [Hnd Hf].
      apply Hnf. rewrite fmap_app in Hnd, Hf.
      apply NoDup_app in Hnd as (Hnd1 & _ & _). split; [done|].
      intros k Hk. apply Hf, elem_of_app. by left.
Qed.

(** The reverse mapping is built iff no lower-cased name is listed twice. *)
Lemma build_ok_iff (m : mapping) :
  (exists rm, build_reverse_mapping m ∅ = Ok rm) <-> NoDup (alias_pairs m).*1.
Proof.
  pose proof (build_reverse_mapping_spec m ∅) as H. unfold fresh_keys in H.
  destruct (build_reverse_mapping m ∅) as [rm|e].
  - destruct H as [[Hnd _] _]. split; [done|]. intros _. by exists rm.
  - destruct H as [_ Hnf]. split; [intros [rm ?]; done|].
    intros Hnd. exfalso. apply Hnf. split; [done|]. intros k _. apply lookup_empty.
Qed.

Lemma build_ok_lookup (m : mapping) rm k v :
  build_reverse_mapping m ∅ = Ok rm ->
  rm !! k = Some v <-> (k, v) ∈ alias_pairs m.
Proof.
  intros Hb. pose proof (build_reverse_mapping_spec m ∅) as H. rewrite Hb in H.
  destruct H as [_ Hext]. unfold extends in Hext. rewrite (Hext k v), lookup_empty. split; [|auto].
  intros [?|?]; done.
Qed.

Lemma build_err_ambiguous (m : mapping) rm e :
  build_reverse_mapping m rm = Err e -> ambiguity e = true.
Proof.
  intros Hb. pose proof (build_reverse_mapping_spec m rm) as H. rewrite Hb in H.
  by destruct H.
Qed.

Lemma assign_not_ambiguous rm cols used rd :
  is_ambiguous (assign rm cols used rd) = false.
Proof.
  revert used rd. induction cols as [|[o n] cols IH]; intros used rd; [done|].
  simpl. destruct (rm !! _); [|apply IH].
  destruct (decide _); [done|apply IH].
Qed.

Lemma clash_cons e (m : mapping) : clash m -> clash (e :: m).
Proof.
  intros (f1 & p1 & f2 & p2 & n1 & n2 & H1 & H2 & H).
  exists f1, p1, f2, p2, n1, n2. split; [by right|]. split; [by right|done].
Qed.

(** When no final name lists a lower-cased name twice, either all
    lower-cased names are distinct or two final names clash. *)
Lemma nodup_or_clash (m : mapping) :
  NoDup m.*1 ->
  (forall f p, (f, p) ∈ m -> NoDup (Py.lower <$> names_of p)) ->
  NoDup (alias_pairs m).*1 \/ clash m.
Proof.
  induction m as [|[f p] m IH]; intros Hkeys Hnames.
  - left. constructor.
  - apply NoDup_cons in Hkeys as [Hf Hkeys]. simpl in Hf.
    assert (Hnames' : forall f' p', (f', p') ∈ m -> NoDup (Py.lower <$> names_of p')).
    { intros f' p' Hin. apply (Hnames f' p'). by right. }
    destruct (IH Hkeys Hnames') as [Hnd|Hc]; [|right; by apply clash_cons].
    rewrite alias_pairs_cons, fmap_app, <- list_fmap_compose.
    change (fst ∘ (fun name : string => (Py.lower name, f))) with Py.lower.
    destruct (decide (Forall (fun k => k ∉ (alias_pairs m).*1) (Py.lower <$> names_of p)))
      as [Hall|Hex].
    + left. apply NoDup_app. split; [|split; [|done]].
      * apply (Hnames f p). by left.
      * intros k Hk. by apply (proj1 (Forall_forall _ _) Hall).
    + right. apply not_Forall_Exists in Hex; [|apply _].
      apply Exists_exists in Hex as (k & Hk & Hin). simpl in Hin.
      apply dec_stable in Hin.
      apply list_elem_of_fmap in Hk as (n1 & -> & Hn1).
      apply list_elem_of_fmap in Hin as ([k v] & Hkv & Hin). simpl in Hkv. subst k.
      apply elem_of_alias_pairs in Hin as (p2 & n2 & Hm & Hn2 & Heq).
      exists f, p, v, p2, n1, n2. split; [by left|]. split; [by right|].
      split; [|done]. intros <-. apply Hf. apply list_elem_of_fmap. by exists (f, p2).
Qed.

Lemma clash_is_ambiguous (m : mapping) :
  clash m -> is_ambiguous (build_reverse_mapping m ∅) = true.
Proof.
  intros (f1 & p1 & f2 & p2 & n1 & n2 & H1 & H2 & Hne & Hn1 & Hn2 & Heq).
  destruct (build_reverse_mapping m ∅) as [rm|e] eqn:Hb.
  - exfalso. apply Hne.
    assert (rm !! Py.lower n1 = Some f1) as E1.
    { apply (build_ok_lookup m); [done|]. apply elem_of_alias_pairs. by exists p1, n1. }
    assert (rm !! Py.lower n1 = Some f2) as E2.
    { apply (build_ok_lookup m); [done|]. apply elem_of_alias_pairs. by exists p2, n2. }
    congruence.
  - simpl. by apply build_err_ambiguous in Hb.
Qed.

Lemma alias_pairs_Permutation (m1 m2 : mapping) :
  m1 ≡ₚ m2 -> alias_pairs m1 ≡ₚ alias_pairs m2.
Proof. intros H. unfold alias_pairs. by rewrite H. Qed.

(** The reverse mapping does not depend on the order of the items. *)
Lemma build_Permutation (m1 m2 : mapping) :
  m1 ≡ₚ m2 ->
  match build_reverse_mapping m1 ∅, build_reverse_mapping m2 ∅ with
  | Ok rm1, Ok rm2 => rm1 = rm2
  | Err e1, Err e2 => ambiguity e1 = true /\ ambiguity e2 = true
  | _, _ => False
  end.
Proof.
  intros Hp. pose proof (alias_pairs_Permutation _ _ Hp) as Hps.
  pose proof (build_ok_iff m1) as H1. pose proof (build_ok_iff m2) as H2.
  rewrite Hps in H1.
  destruct (build_reverse_mapping m1 ∅) as [rm1|e1] eqn:E1,
           (build_reverse_mapping m2 ∅) as [rm2|e2] eqn:E2.
  - apply map_eq. intros k. apply option_eq. intros v.
    rewrite (build_ok_lookup m1 rm1 k v E1), (build_ok_lookup m2 rm2 k v E2).
    by rewrite Hps.
  - destruct (proj2 H2) as [? ?]; [|done]. apply H1. by exists rm1.
  - destruct (proj2 H1) as [? ?]; [|done]. apply H2. by exists rm2.
  - split; by eapply build_err_ambiguous.
Qed.

Section WithStripPunctuation.

Variable sp : string -> string.

Lemma assign_cons rm c df rp lc used rd :
  assign rm (zip (c :: df) (normalized_cols sp (c :: df) rp lc)) used rd
  = match rm !! lookup_key sp rp lc c with
    | Some f =>
        if decide (f ∈ used) then Err (MultipleColumns f)
        else assign rm (zip df (normalized_cols sp df rp lc)) ({[f]} ∪ used)
               (if decide (c = f) then rd else <[c := f]> rd)
    | None => assign rm (zip df (normalized_cols sp df rp lc)) used rd
    end.
Proof. destruct rp, lc; reflexivity. Qed.

(** The first column that resolves to a final name already used stops
    the loop. *)
Lemma assign_first_duplicate rm rp lc pre c post used rd f :
  rm !! lookup_key sp rp lc c = Some f ->
  f ∈ used \/ (exists c0, c0 ∈ pre /\ rm !! lookup_key sp rp lc c0 = Some f) ->
  exists g,
    assign rm (zip (pre ++ c :: post) (normalized_cols sp (pre ++ c :: post) rp lc))
      used rd = Err (MultipleColumns g)
    /\ (NoDup (omap (fun c0 => rm !! lookup_key sp rp lc c0) pre) ->
        (forall t, t ∈ omap (fun c0 => rm !! lookup_key sp rp lc c0) pre -> t ∉ used) ->
        g = f).
Proof.
  intros Hc. revert used rd.
  induction pre as [|c0 pre IH]; intros used rd Hseen.
  - destruct Hseen as [Hu|(c0 & Hc0 & _)]; [|by apply elem_of_nil in Hc0].
    exists f. rewrite app_nil_l, assign_cons, Hc. by rewrite decide_True.
  - rewrite <- app_comm_cons, assign_cons. cbn [omap list_omap].
    destruct (rm !! lookup_key sp rp lc c0) as [t|] eqn:Ht.
    + destruct (decide (t ∈ used)) as [Hin|Hnin].
      * exists t. split; [done|]. intros _ Hfresh. exfalso.
        apply (Hfresh t); [by left|done].
      * destruct (IH ({[t]} ∪ used) (if decide (c0 = t) then rd else <[c0:=t]> rd))
          as (g & Hg & Hgf).
        { destruct Hseen as [Hu|(c1 & [->|Hc1]%elem_of_cons & Hr)].
          - left. set_solver.
          - left. rewrite Ht in Hr. injection Hr as ->. set_solver.
          - right. by exists c1. }
        exists g. split; [done|]. intros [Ht' Hnd]%NoDup_cons Hfresh.
        apply Hgf; [done|]. intros t' Ht'in.
        assert (t' ∉ used) by (apply Hfresh; by right).
        assert (t' <> t) by (intros Heq; subst t'; done).
        apply not_elem_of_union. split; [by apply not_elem_of_singleton|done].
    + destruct (IH used rd) as (g & Hg & Hgf).
      { destruct Hseen as [Hu|(c1 & [->|Hc1]%elem_of_cons & Hr)].
        - by left.
        - congruence.
        - right. by exists c1. }
      exists g. done.
Qed.

(** C6, as amended.  For a mapping (a dict: its keys are distinct) in
    which no final name lists the same lower-cased name twice,
    [normalize_columns] raises the "Ambiguous mapping" error if and
    only if two different final names claim the same lower-cased name.
    Whether it is raised is decided while the reverse mapping is built,
    before the columns are looked at, so it is the same for every
    frame. *)
Theorem ambiguous_iff_two_final_names_clash (m : mapping) (rp lc : bool) :
  NoDup m.*1 ->
  (forall f p, (f, p) ∈ m -> NoDup (Py.lower <$> names_of p)) ->
  (forall df, is_ambiguous (normalize_columns sp df m rp lc) = true <-> clash m)
  /\ (forall df, is_ambiguous (normalize_columns sp df m rp lc)
                 = is_ambiguous (build_reverse_mapping m ∅)).
Proof.
  intros Hkeys Hnames.
  assert (Hpre : forall df, is_ambiguous (normalize_columns sp df m rp lc)
                            = is_ambiguous (build_reverse_mapping m ∅)).
  { intros df. unfold normalize_columns, rename_plan.
    destruct (build_reverse_mapping m ∅) as [rm|e]; [|done].
    pose proof (assign_not_ambiguous rm
                  (zip df (normalized_cols sp df rp lc)) ∅ ∅) as Ha.
    destruct (assign rm _ ∅ ∅) as [d|e]; [|done].
    destruct (decide (d = ∅)); [done|].
    unfold rename. by destruct (decide (NoDup _)). }
  split; [|done]. intros df. rewrite Hpre. split.
  - intros Ha. destruct (nodup_or_clash m Hkeys Hnames) as [Hnd|Hc]; [|done].
    apply build_ok_iff in Hnd as [rm Hrm]. by rewrite Hrm in Ha.
  - apply clash_is_ambiguous.
Qed.

(** C7.  When the reverse mapping is built and a column resolves to a
    final name that an earlier column resolved to, [normalize_columns]
    raises the "Multiple columns" error; it names the final name of the
    first such column. *)
Theorem second_column_for_final_name_raises (m : mapping) (rp lc : bool)
    (rm : gmap string string) (pre : list string) (c : string)
    (post : list string) (f : string) :
  build_reverse_mapping m ∅ = Ok rm ->
  rm !! lookup_key sp rp lc c = Some f ->
  (exists c0, c0 ∈ pre /\ rm !! lookup_key sp rp lc c0 = Some f) ->
  exists g,
    rename_plan sp (pre ++ c :: post) m rp lc = Err (MultipleColumns g)
    /\ normalize_columns sp (pre ++ c :: post) m rp lc = Err (MultipleColumns g)
    /\ (NoDup (omap (fun c0 => rm !! lookup_key sp rp lc c0) pre) -> g = f).
Proof.
  intros Hb Hc Hseen.
  destruct (assign_first_duplicate rm rp lc pre c post ∅ ∅ f Hc (or_intror Hseen))
    as (g & Hg & Hgf).
  exists g. unfold normalize_columns, rename_plan. rewrite Hb, Hg.
  split; [done|split; [done|]]. intros Hnd. apply Hgf; [done|]. set_solver.
Qed.

(** C8, as amended.  Two mappings that hold the same items in a
    different insertion order give the same outcome: the same
    [rename_dict] and the same columns on success, the same "Multiple
    columns" error, or an "Ambiguous mapping" error in both. *)
Theorem key_order_does_not_matter (df : list string) (m1 m2 : mapping)
    (rp lc : bool) :
  m1 ≡ₚ m2 ->
  same_outcome (rename_plan sp df m1 rp lc) (rename_plan sp df m2 rp lc)
  /\ same_outcome (normalize_columns sp df m1 rp lc)
                  (normalize_columns sp df m2 rp lc).
Proof.
  intros Hp. pose proof (build_Permutation m1 m2 Hp) as Hb.
  unfold same_outcome, normalize_columns, rename_plan.
  destruct (build_reverse_mapping m1 ∅) as [rm1|e1],
           (build_reverse_mapping m2 ∅) as [rm2|e2]; try done.
  - subst rm2. split; by left.
  - destruct Hb as [H1 H2]. split; right; done.
Qed.

End WithStripPunctuation.

End ColumnsFacts.

Module ColumnsExamples.
Import Columns ColumnsFacts.

Local Ltac by_decide := apply (bool_decide_unpack _); vm_compute; reflexivity.

Example rename_three_columns :
  rename_plan strip_punctuation_default ["Name "; "AGE!"; "City."]
    [("full_name", Many ["name"]); ("years_old", Many ["age"]); ("location", Many ["city"])]
    true true
  = Ok (<["Name " := "full_name"]> (<["AGE!" := "years_old"]> (<["City." := "location"]> ∅)))
  /\ normalize_columns strip_punctuation_default ["Name "; "AGE!"; "City."]
    [("full_name", Many ["name"]); ("years_old", Many ["age"]); ("location", Many ["city"])]
    true true
  = Ok ["full_name"; "years_old"; "location"].
Proof. split; vm_compute; reflexivity. Qed.

Example two_final_names_one_alias :
  normalize_columns strip_punctuation_default ["x"]
    [("a", Many ["x"]); ("b", Many ["x"])] true true
  = Err (AmbiguousMapping "x" "a" "b").
Proof. vm_compute; reflexivity. Qed.

(** A name listed twice under one final name raises the "Ambiguous
    mapping" error although no two final names clash. *)
Lemma repeated_name_is_ambiguous_without_clash :
  let m := [("full_name", Many ["name"; "Name"])] in
  normalize_columns strip_punctuation_default ["name"] m true true
  = Err (AmbiguousMapping "Name" "full_name" "full_name")
  /\ is_ambiguous (normalize_columns strip_punctuation_default ["name"] m true true) = true
  /\ ~ clash m.
Proof.
  intros m. split; [vm_compute; reflexivity|]. split; [vm_compute; reflexivity|].
  intros (f1 & p1 & f2 & p2 & n1 & n2 & H1 & H2 & Hne & _).
  apply list_elem_of_singleton in H1. apply list_elem_of_singleton in H2. congruence.
Qed.

Lemma ambiguous_iff_two_final_names_clash_witness :
  let m := [("a", Many ["x"]); ("b", One "X")] in
  is_ambiguous (normalize_columns strip_punctuation_default ["x"] m true true) = true
  /\ clash m.
Proof.
  intros m.
  assert (Hkeys : NoDup m.*1) by by_decide.
  assert (Hnames : forall f p, (f, p) ∈ m -> NoDup (Py.lower <$> names_of p)).
  { intros f p [[= -> ->]|[[= -> ->]|[]%elem_of_nil]%elem_of_cons]%elem_of_cons;
      by_decide. }
  destruct (ambiguous_iff_two_final_names_clash strip_punctuation_default m true true
              Hkeys Hnames) as [Hiff _].
  assert (Ha : is_ambiguous (normalize_columns strip_punctuation_default ["x"] m true true)
               = true) by (vm_compute; reflexivity).
  split; [exact Ha|]. exact (proj1 (Hiff ["x"]) Ha).
Defined.

Lemma second_column_for_final_name_raises_witness :
  normalize_columns strip_punctuation_default ["name"; "first_name"]
    [("full_name", Many ["name"; "first_name"])] true true
  = Err (MultipleColumns "full_name").
Proof.
  destruct (second_column_for_final_name_raises strip_punctuation_default
              [("full_name", Many ["name"; "first_name"])] true true
              (<["first_name" := "full_name"]> (<["name" := "full_name"]> ∅))
              ["name"] "first_name" [] "full_name")
    as (g & _ & Hn & Hg).
  - vm_compute; reflexivity.
  - vm_compute; reflexivity.
  - exists "name". split; [by left|vm_compute; reflexivity].
  - simpl in Hn. rewrite Hn. rewrite Hg; [reflexivity|].
    by_decide.
Defined.

(** The final name is used as written: changing the letter case of a
    key changes the columns returned. *)
Lemma key_case_changes_columns :
  let m1 := [("full_name", Many ["name"])] in
  let m2 := [("Full_Name", Many ["name"])] in
  (Py.lower <$> m1.*1 = Py.lower <$> m2.*1 /\ m1.*2 = m2.*2)
  /\ normalize_columns strip_punctuation_default ["name"] m1 true true = Ok ["full_name"]
  /\ normalize_columns strip_punctuation_default ["name"] m2 true true = Ok ["Full_Name"]
  /\ normalize_columns strip_punctuation_default ["name"] m1 true true
     <> normalize_columns strip_punctuation_default ["name"] m2 true true
  /\ rename_plan strip_punctuation_default ["name"] m1 true true
     <> rename_plan strip_punctuation_default ["name"] m2 true true.
Proof.
  intros m1 m2. repeat split; try (vm_compute; reflexivity).
  - vm_compute. discriminate.
  - vm_compute. discriminate.
Qed.

Lemma key_order_does_not_matter_witness :
  let m1 := [("a", One "x"); ("b", Many ["y"; "z"])] in
  let m2 := [("b", Many ["y"; "z"]); ("a", One "x")] in
  same_outcome (normalize_columns strip_punctuation_default ["X"; "w"; "z"] m1 true true)
               (normalize_columns strip_punctuation_default ["X"; "w"; "z"] m2 true true)
  /\ normalize_columns strip_punctuation_default ["X"; "w"; "z"] m2 true true
     = Ok ["a"; "w"; "b"].
Proof.
  intros m1 m2. split; [|vm_compute; reflexivity].
  apply (key_order_does_not_matter strip_punctuation_default ["X"; "w"; "z"] m1 m2 true true).
  apply perm_swap.
Defined.

End ColumnsExamples.

(* ===================================================================== *)
(** * Python text primitives: facts *)
(* ===================================================================== *)

Module PyFacts.
Import Py.

Local Ltac by_cases_on c :=
  destruct c as [[] [] [] [] [] [] [] []]; try reflexivity; try discriminate.

Lemma lower_char_space c : is_space (lower_char c) = is_space c.
Proof. by_cases_on c. Qed.

Lemma lower_char_punct c : is_punct (lower_char c) = is_punct c.
Proof. by_cases_on c. Qed.

Lemma lower_char_idem c : lower_char (lower_char c) = lower_char c.
Proof. by_cases_on c. Qed.

Lemma punct_lower_char c : is_punct c = true -> lower_char c = c.
Proof. by_cases_on c. Qed.

Lemma punct_not_space c : is_punct c = true -> is_space c = false.
Proof. unfold is_punct. by destruct (is_word c), (is_space c). Qed.

Lemma lower_idem s : lower (lower s) = lower s.
Proof. induction s as [|c s IH]; simpl; [done|]. by rewrite lower_char_idem, IH. Qed.

Lemma lower_app s t : lower (s +:+ t) = lower s +:+ lower t.
Proof. induction s as [|c s IH]; simpl; [done|]. by rewrite IH. Qed.

Lemma lstrip_lower s : lstrip (lower s) = lower (lstrip s).
Proof.
  induction s as [|c s IH]; simpl; [done|].
  rewrite lower_char_space. by destruct (is_space c).
Qed.

Lemma rstrip_lower s : rstrip (lower s) = lower (rstrip s).
Proof.
  induction s as [|c s IH]; simpl; [done|].
  rewrite IH, lower_char_space. destruct (rstrip s); simpl; [|done].
  by destruct (is_space c).
Qed.

Lemma strip_lower s : strip (lower s) = lower (strip s).
Proof. unfold strip. by rewrite lstrip_lower, rstrip_lower. Qed.

Lemma rstrip_cons_nonspace c s :
  is_space c = false -> rstrip (String c s) = String c (rstrip s).
Proof. intros H. simpl. rewrite H. by destruct (rstrip s). Qed.

Lemma rstrip_cons c s :
  rstrip (String c s)
  = match rstrip s with
    | EmptyString => if is_space c then EmptyString else String c EmptyString
    | r => String c r
    end.
Proof. reflexivity. Qed.

Lemma rstrip_idem s : rstrip (rstrip s) = rstrip s.
Proof.
  induction s as [|c s IH]; [done|]. rewrite rstrip_cons.
  destruct (rstrip s) as [|a r] eqn:E.
  - destruct (is_space c) eqn:Hc; [done|]. simpl. by rewrite Hc.
  - by rewrite rstrip_cons, IH.
Qed.

Lemma lstrip_length s : String.length (lstrip s) <= String.length s.
Proof.
  induction s as [|c s IH]; simpl; [done|].
  destruct (is_space c); simpl; lia.
Qed.

Lemma lstrip_idem s : lstrip (lstrip s) = lstrip s.
Proof.
  induction s as [|c s IH]; simpl; [done|].
  destruct (is_space c) eqn:Hc; [done|]. simpl. by rewrite Hc.
Qed.

Lemma lstrip_rstrip_fixed t : lstrip t = t -> lstrip (rstrip t) = rstrip t.
Proof.
  destruct t as [|c t]; [done|]. intros H.
  destruct (is_space c) eqn:Hc.
  - exfalso. simpl in H. rewrite Hc in H.
    pose proof (lstrip_length t) as Hl. rewrite H in Hl. simpl in Hl. lia.
  - rewrite rstrip_cons_nonspace by done. simpl. by rewrite Hc.
Qed.

Lemma strip_idem s : strip (strip s) = strip s.
Proof.
  unfold strip. rewrite (lstrip_rstrip_fixed (lstrip s)) by apply lstrip_idem.
  apply rstrip_idem.
Qed.

Lemma append_cons c s t : String c s +:+ t = String c (s +:+ t).
Proof. reflexivity. Qed.

Lemma strip_lower_strip s : strip (lower (strip s)) = strip (lower s).
Proof. by rewrite <- strip_lower, strip_idem. Qed.

(** ASCII text stays ASCII. *)
Lemma is_ascii_cons c s :
  is_ascii (String c s) = (nat_of_ascii c <? 128)%nat && is_ascii s.
Proof. reflexivity. Qed.

Lemma is_ascii_app s t : is_ascii (s +:+ t) = is_ascii s && is_ascii t.
Proof.
  induction s as [|c s IH]; [done|].
  by rewrite append_cons, !is_ascii_cons, IH, andb_assoc.
Qed.

Lemma lower_char_ascii c :
  (nat_of_ascii c <? 128)%nat = true ->
  (nat_of_ascii (lower_char c) <? 128)%nat = true.
Proof.
  intros Hc. unfold lower_char. destruct (is_upper c) eqn:Hu; [|done].
  unfold is_upper in Hu. apply andb_true_iff in Hu as [_ Hu%Nat.leb_le].
  rewrite nat_ascii_embedding by lia. apply Nat.ltb_lt. lia.
Qed.

Lemma is_ascii_lower s : is_ascii s = true -> is_ascii (lower s) = true.
Proof.
  induction s as [|c s IH]; [done|]. simpl lower. rewrite !is_ascii_cons.
  intros [Hc Hs]%andb_true_iff. by rewrite lower_char_ascii, IH.
Qed.

Lemma is_ascii_lstrip s : is_ascii s = true -> is_ascii (lstrip s) = true.
Proof.
  induction s as [|c s IH]; [done|]. simpl. destruct (is_space c); [|done].
  rewrite is_ascii_cons. intros [_ Hs]%andb_true_iff. by apply IH.
Qed.

Lemma is_ascii_rstrip s : is_ascii s = true -> is_ascii (rstrip s) = true.
Proof.
  induction s as [|c s IH]; [done|]. rewrite is_ascii_cons.
  intros [Hc Hs]%andb_true_iff. specialize (IH Hs). simpl.
  destruct (rstrip s) as [|c' r].
  - destruct (is_space c); [done|]. by rewrite is_ascii_cons, Hc.
  - by rewrite is_ascii_cons, Hc, IH.
Qed.

Lemma is_ascii_strip s : is_ascii s = true -> is_ascii (strip s) = true.
Proof. intros H. unfold strip. by apply is_ascii_rstrip, is_ascii_lstrip. Qed.

End PyFacts.

(* ===================================================================== *)
(** * The name normalizer: facts *)
(* ===================================================================== *)

Module NormalizerFacts.
Import Py PyFacts Normalizer.

Lemma all_punct_cons c s : all_punct (String c s) = is_punct c && all_punct s.
Proof. reflexivity. Qed.

Lemma no_punct_cons c s : no_punct (String c s) = negb (is_punct c) && no_punct s.
Proof. reflexivity. Qed.

Lemma no_punct_app s t : no_punct (s +:+ t) = no_punct s && no_punct t.
Proof.
  induction s as [|c s IH]; [done|].
  rewrite append_cons, !no_punct_cons, IH. by rewrite andb_assoc.
Qed.

(** *** Replacements without punctuation *)

Lemma sub_no_punct_fixed repl b t : no_punct t = true -> sub_punct_runs repl b t = t.
Proof.
  revert b. induction t as [|c t IH]; intros b; [done|].
  rewrite no_punct_cons. intros [Hc Ht]%andb_true_iff. simpl.
  destruct (is_punct c); [done|]. by rewrite IH.
Qed.

Lemma sub_has_no_punct repl b s :
  no_punct repl = true -> no_punct (sub_punct_runs repl b s) = true.
Proof.
  intros Hr. revert b. induction s as [|c s IH]; intros b; [done|]. simpl.
  destruct (is_punct c) eqn:Hc.
  - destruct b; [apply IH|]. by rewrite no_punct_app, Hr, IH.
  - by rewrite no_punct_cons, Hc, IH.
Qed.

Lemma lstrip_no_punct s : no_punct s = true -> no_punct (lstrip s) = true.
Proof.
  induction s as [|c s IH]; [done|]. intros H. simpl.
  destruct (is_space c); [|done]. apply IH.
  rewrite no_punct_cons in H. by apply andb_true_iff in H as [_ ?].
Qed.

Lemma rstrip_no_punct s : no_punct s = true -> no_punct (rstrip s) = true.
Proof.
  induction s as [|c s IH]; [done|].
  rewrite no_punct_cons. intros [Hc Hs]%andb_true_iff. simpl.
  specialize (IH Hs). destruct (rstrip s) as [|a r].
  - destruct (is_space c); [done|]. by rewrite no_punct_cons, Hc.
  - by rewrite no_punct_cons, Hc, IH.
Qed.

Lemma strip_no_punct s : no_punct s = true -> no_punct (strip s) = true.
Proof. intros H. unfold strip. by apply rstrip_no_punct, lstrip_no_punct. Qed.

Lemma lower_no_punct s : no_punct s = true -> no_punct (lower s) = true.
Proof.
  induction s as [|c s IH]; [done|].
  rewrite no_punct_cons. intros [Hc Hs]%andb_true_iff. simpl.
  by rewrite no_punct_cons, lower_char_punct, Hc, IH.
Qed.

(** *** Replacements made of punctuation only *)

Lemma lower_all_punct r : all_punct r = true -> lower r = r.
Proof.
  induction r as [|c r IH]; [done|].
  rewrite all_punct_cons. intros [Hc Hr]%andb_true_iff. simpl.
  by rewrite punct_lower_char, IH.
Qed.

Lemma rstrip_app_punct r z :
  all_punct r = true -> rstrip (r +:+ z) = r +:+ rstrip z.
Proof.
  induction r as [|c r IH]; [done|].
  rewrite all_punct_cons. intros [Hc Hr]%andb_true_iff.
  rewrite append_cons, rstrip_cons_nonspace by by apply punct_not_space.
  by rewrite IH.
Qed.

Lemma sub_true_app r t b :
  all_punct r = true ->
  sub_punct_runs b true (r +:+ t) = sub_punct_runs b true t.
Proof.
  induction r as [|c r IH]; [done|].
  rewrite all_punct_cons. intros [Hc Hr]%andb_true_iff.
  rewrite append_cons. cbn [sub_punct_runs]. rewrite Hc. by apply IH.
Qed.

Section PunctuationOnly.

Variables (c0 : ascii) (r0 : string).
Let repl := String c0 r0.
Hypothesis Hrepl : all_punct repl = true.

Lemma repl_head : is_punct c0 = true.
Proof. unfold repl in Hrepl. rewrite all_punct_cons in Hrepl.
       by apply andb_true_iff in Hrepl as [? _]. Qed.

Lemma sub_false_repl t :
  sub_punct_runs repl false (repl +:+ t) = repl +:+ sub_punct_runs repl true t.
Proof.
  assert (Hr0 : all_punct r0 = true).
  { unfold repl in Hrepl. rewrite all_punct_cons in Hrepl.
    by apply andb_true_iff in Hrepl as [_ ?]. }
  unfold repl at 2. rewrite append_cons. cbn [sub_punct_runs].
  rewrite repl_head. by rewrite (sub_true_app r0 t repl Hr0).
Qed.

Lemma sub_idem b s :
  sub_punct_runs repl b (sub_punct_runs repl b s) = sub_punct_runs repl b s.
Proof.
  revert b. induction s as [|c s IH]; intros b; [done|]. simpl.
  destruct (is_punct c) eqn:Hc.
  - destruct b; [apply IH|]. by rewrite sub_false_repl, IH.
  - simpl. by rewrite Hc, IH.
Qed.

Lemma lower_sub b s :
  lower (sub_punct_runs repl b s) = sub_punct_runs repl b (lower s).
Proof.
  revert b. induction s as [|c s IH]; intros b; [done|]. simpl.
  rewrite lower_char_punct. destruct (is_punct c) eqn:Hc.
  - destruct b; [apply IH|]. by rewrite lower_app, lower_all_punct, IH.
  - simpl. by rewrite IH.
Qed.

Lemma sub_lstrip s :
  sub_punct_runs repl false (lstrip s) = lstrip (sub_punct_runs repl false s).
Proof.
  induction s as [|c s IH]; [done|]. cbn [lstrip].
  destruct (is_space c) eqn:Hs.
  - assert (is_punct c = false) as Hc
      by (unfold is_punct; rewrite Hs; by destruct (is_word c)).
    cbn [sub_punct_runs]. rewrite Hc. cbn [lstrip]. by rewrite Hs.
  - cbn [sub_punct_runs]. destruct (is_punct c).
    + unfold repl. rewrite append_cons. cbn [lstrip].
      by rewrite (punct_not_space c0 repl_head).
    + cbn [lstrip]. by rewrite Hs.
Qed.

Lemma sub_false_nonempty a r : sub_punct_runs repl false (String a r) <> "".
Proof. simpl. by destruct (is_punct a). Qed.

Lemma sub_cons_other b c s :
  is_punct c = false ->
  sub_punct_runs repl b (String c s) = String c (sub_punct_runs repl false s).
Proof. intros Hc. simpl. by rewrite Hc. Qed.

Lemma sub_rstrip b s :
  sub_punct_runs repl b (rstrip s) = rstrip (sub_punct_runs repl b s).
Proof.
  revert b. induction s as [|c s IH]; intros b; [done|].
  destruct (is_space c) eqn:Hs.
  - assert (is_punct c = false) as Hc
      by (unfold is_punct; rewrite Hs; by destruct (is_word c)).
    rewrite (sub_cons_other b c s Hc), !rstrip_cons, <- IH, Hs.
    destruct (rstrip s) as [|a r] eqn:E; [done|].
    rewrite (sub_cons_other b c _ Hc).
    pose proof (sub_false_nonempty a r) as Hne.
    by destruct (sub_punct_runs repl false (String a r)).
  - rewrite rstrip_cons_nonspace by done. cbn [sub_punct_runs].
    destruct (is_punct c).
    + destruct b; [apply IH|]. by rewrite rstrip_app_punct, IH.
    + by rewrite rstrip_cons_nonspace, IH.
Qed.

Lemma sub_strip s :
  sub_punct_runs repl false (strip s) = strip (sub_punct_runs repl false s).
Proof. unfold strip. by rewrite sub_rstrip, sub_lstrip. Qed.

End PunctuationOnly.

(** The model agrees with the expected values of the test-suite. *)
Example strip_punctuation_tests :
  strip_punctuation "Email@domain.com" "" = "Emaildomaincom"
  /\ strip_punctuation "  Hello, World!  " "" = "Hello World"
  /\ strip_punctuation "" "" = ""
  /\ strip_punctuation "Price: $100" "_" = "Price_ _100"
  /\ strip_punctuation "Hello,   World!" "" = "Hello   World"
  /\ strip_punctuation "hello-world-test" "_" = "hello_world_test"
  /\ strip_punctuation "hello_world_test" "" = "hello_world_test"
  /\ strip_punctuation "Café résumé naïve" "" = "Café résumé naïve".
Proof. repeat split; vm_compute; reflexivity. Qed.


Lemma is_ascii_sub_punct_runs repl b s :
  is_ascii repl = true -> is_ascii s = true ->
  is_ascii (sub_punct_runs repl b s) = true.
Proof.
  intros Hrepl. revert b. induction s as [|c s IH]; intros b; [done|].
  rewrite is_ascii_cons. intros [Hc Hs]%andb_true_iff. simpl.
  destruct (is_punct c).
  - destruct b; [by apply IH|]. rewrite is_ascii_app, Hrepl. by apply IH.
  - rewrite is_ascii_cons, Hc. by apply IH.
Qed.

Lemma is_ascii_normalize (o : options) (x : string) :
  is_ascii x = true -> is_ascii (replacement o) = true ->
  is_ascii (normalize o x) = true.
Proof.
  intros Hx Hrepl. unfold normalize, strip_punctuation.
  apply is_ascii_strip.
  assert (Ht : is_ascii (if strip_punct o
                         then strip (sub_punct_runs (replacement o) false x)
                         else x) = true).
  { destruct (strip_punct o); [|done].
    by apply is_ascii_strip, is_ascii_sub_punct_runs. }
  destruct (fold_case o); [by apply is_ascii_lower|done].
Qed.



End NormalizerFacts.

(* ===================================================================== *)
(** * More on the header locator *)
(* ===================================================================== *)

Section ScanCandidate.

Variable count : row -> nat.
Variable hit : row -> bool.

(** Either no row improved on [mx], or the candidate is a row of the
    list whose count is the maximum tracked and which is strictly wider
    than every row before it. *)
Lemma scan_candidate rows i mx hr :
  let res := scan count hit rows i mx hr in
  (res = mk_scan mx hr false /\ forall r, r ∈ rows -> count r <= mx)
  \/ (exists n r,
        header_row res = i + n /\ rows !! n = Some r /\
        count r = max_consecutive res /\ mx < count r /\
        forall j r', j < n -> rows !! j = Some r' -> count r' < count r).
Proof.
  revert i mx hr. induction rows as [|r rows IH]; intros i mx hr; simpl.
  - left. split; [done|]. intros r Hr. by apply elem_of_nil in Hr.
  - destruct (Nat.ltb_spec mx (count r)) as [Hlt|Hge].
    + destruct (hit r).
      * right. exists 0, r. simpl. repeat split; try done; try lia.
      * destruct (IH (S i) (count r) i) as [[-> Hall]|(n & r0 & Hh & Hn & Hc & Hm & He)].
        -- right. exists 0, r. simpl. repeat split; try done; try lia.
        -- right. exists (S n), r0. simpl. rewrite Hh.
           repeat split; try done; try lia.
           intros [|j] r' Hj Hr'; simpl in Hr'.
           ++ injection Hr' as <-. lia.
           ++ apply (He j); [lia|done].
    + destruct (IH (S i) mx hr) as [[-> Hall]|(n & r0 & Hh & Hn & Hc & Hm & He)].
      * left. split; [done|]. intros r' [->|Hr']%elem_of_cons; [done|by apply Hall].
      * right. exists (S n), r0. simpl. rewrite Hh.
        repeat split; try done; try lia.
        intros [|j] r' Hj Hr'; simpl in Hr'.
        -- injection Hr' as <-. lia.
        -- apply (He j); [lia|done].
Qed.

(** When the loop is not left through the keyword exit, the maximum it
    tracked bounds every row. *)
Lemma scan_no_hit_bounds rows i mx hr :
  keyword_hit (scan count hit rows i mx hr) = false ->
  mx <= max_consecutive (scan count hit rows i mx hr)
  /\ forall r, r ∈ rows -> count r <= max_consecutive (scan count hit rows i mx hr).
Proof.
  revert i mx hr. induction rows as [|r rows IH]; intros i mx hr; simpl.
  - intros _. split; [done|]. intros r Hr. by apply elem_of_nil in Hr.
  - destruct (Nat.ltb_spec mx (count r)) as [Hlt|Hge].
    + destruct (hit r); [done|]. intros H. destruct (IH _ _ _ H) as [Hm Hall].
      split; [lia|]. intros r' [->|Hr']%elem_of_cons; [done|by apply Hall].
    + intros H. destruct (IH _ _ _ H) as [Hm Hall].
      split; [done|]. intros r' [->|Hr']%elem_of_cons; [lia|by apply Hall].
Qed.

(** The loop depends on [hit] only through the rows it is given. *)
Lemma scan_ext_hit (hit' : row -> bool) rows i mx hr :
  (forall r, r ∈ rows -> hit r = hit' r) ->
  scan count hit rows i mx hr = scan count hit' rows i mx hr.
Proof.
  revert i mx hr. induction rows as [|r rows IH]; intros i mx hr H; [done|].
  simpl. rewrite <- (H r) by by left.
  rewrite !IH; [done|..]; intros r' Hr'; apply H; by right.
Qed.

End ScanCandidate.

Lemma scanned_prefix v max_rows rows :
  exists n, scanned v max_rows rows = take n rows.
Proof.
  destruct v; simpl; [by eexists|]. unfold Df.head.
  destruct (0 <=? max_rows)%Z; by eexists.
Qed.

Lemma scanned_length v max_rows rows :
  length (scanned v max_rows rows) <= length rows.
Proof.
  destruct (scanned_prefix v max_rows rows) as [n ->]. rewrite length_take. lia.
Qed.

(** X1.  The index returned is a row of the grid: it is below the number of
    rows scanned, hence below the number of rows of the grid, and it is 0
    when no row is scanned. *)
Theorem header_row_is_a_scanned_row (v : variant) (rows : grid) (max_rows : Z)
    (kw : option (list string)) :
  header_row (header_scan v rows max_rows kw) <= length (scanned v max_rows rows) - 1
  /\ header_row (header_scan v rows max_rows kw) <= length rows - 1.
Proof.
  pose proof (scanned_length v max_rows rows) as Hl.
  rewrite header_scan_scan.
  destruct (scan_header_range (consecutive_count v) (keywords_present v kw)
              (scanned v max_rows rows) 0 0 0) as [->|H]; lia.
Qed.

(** X2.  Either every scanned row starts with a blank and the result is row 0
    with maximum 0, or the row returned starts with a non-blank cell, its
    count is the maximum tracked, and every scanned row above it is
    strictly narrower. *)
Theorem returned_row_beats_rows_above (v : variant) (rows : grid) (max_rows : Z)
    (kw : option (list string)) :
  let res := header_scan v rows max_rows kw in
  (res = mk_scan 0 0 false
   /\ forall r, r ∈ scanned v max_rows rows -> consecutive_count v r = 0)
  \/ (exists r,
        scanned v max_rows rows !! header_row res = Some r
        /\ consecutive_count v r = max_consecutive res
        /\ 0 < consecutive_count v r
        /\ forall j r', j < header_row res ->
             scanned v max_rows rows !! j = Some r' ->
             consecutive_count v r' < consecutive_count v r).
Proof.
  intros res. subst res. rewrite header_scan_scan.
  destruct (scan_candidate (consecutive_count v) (keywords_present v kw)
              (scanned v max_rows rows) 0 0 0) as [[-> Hall]|(n & r & Hh & Hn & Hc & Hm & He)].
  - left. split; [done|]. intros r Hr. specialize (Hall r Hr). lia.
  - right. exists r. simpl in Hh. rewrite Hh. done.
Qed.

(** X3.  On a sheet that has rows, when every scanned row starts with a
    blank cell, and in particular when none of the rows is scanned, the
    result is row 0, whatever the keywords. *)
Theorem blank_window_gives_row_0 (v : variant) (rows : grid) (max_rows : Z)
    (kw : option (list string)) :
  rows <> [] ->
  (forall r, r ∈ scanned v max_rows rows -> consecutive_count v r = 0) ->
  header_scan v rows max_rows kw = mk_scan 0 0 false
  /\ header_row (header_scan v rows max_rows kw) < length rows.
Proof.
  intros Hne H.
  assert (Hres : header_scan v rows max_rows kw = mk_scan 0 0 false).
  { rewrite header_scan_scan. apply scan_no_improve.
    intros r Hr. rewrite (H r Hr). lia. }
  split; [done|]. rewrite Hres. simpl. destruct rows; [done|]. simpl. lia.
Qed.

Lemma blank_window_gives_row_0_witness :
  (header_scan ExcelVariant
     [[CStr ""; CStr "late"]; [CInt 0; CStr "x"]; [CNone; CNone]] 200 (Some ["late"])
   = mk_scan 0 0 false
   /\ header_scan ExcelVariant [[CStr "a"]] (-1) None = mk_scan 0 0 false
   /\ header_scan DfVariant [[CStr "a"]] 0 None = mk_scan 0 0 false).
Proof.
  split; [|split].
  - apply blank_window_gives_row_0; [discriminate|].
    intros r [->|[->|[->|[]%elem_of_nil]%elem_of_cons]%elem_of_cons]%elem_of_cons;
      reflexivity.
  - apply blank_window_gives_row_0; [discriminate|]. intros r []%elem_of_nil.
  - apply blank_window_gives_row_0; [discriminate|]. intros r []%elem_of_nil.
Defined.

(** X4.  When the loop is not left through the keyword exit, the row
    returned is the first of the widest scanned rows: no scanned row is
    wider than the maximum tracked, every scanned row above the row
    returned is strictly narrower than it, and the row returned has
    exactly that width; when the maximum is 0 the row returned is row 0. *)
Theorem without_keyword_exit_maximum_is_global (v : variant) (rows : grid)
    (max_rows : Z) (kw : option (list string)) :
  let res := header_scan v rows max_rows kw in
  let window := scanned v max_rows rows in
  keyword_hit res = false ->
  (forall r, r ∈ window -> consecutive_count v r <= max_consecutive res)
  /\ (forall j r, j < header_row res -> window !! j = Some r ->
        consecutive_count v r < max_consecutive res)
  /\ (0 < max_consecutive res ->
      exists r, window !! header_row res = Some r
                /\ consecutive_count v r = max_consecutive res)
  /\ (max_consecutive res = 0 -> header_row res = 0).
Proof.
  intros res window. subst res window. rewrite header_scan_scan. intros Hhit.
  apply scan_no_hit_bounds in Hhit as [_ Hall]. split; [exact Hall|].
  destruct (scan_candidate (consecutive_count v) (keywords_present v kw)
              (scanned v max_rows rows) 0 0 0)
    as [[-> _]|(n & r & Hh & Hn & Hc & Hm & He)]; simpl in *.
  - split; [intros j r Hj; lia|]. split; [lia|done].
  - rewrite Hh. split; [|split].
    + intros j r' Hj Hr'. rewrite <- Hc. by apply (He j).
    + intros _. by exists r.
    + lia.
Qed.

Lemma without_keyword_exit_maximum_is_global_witness :
  let g := [[CStr "t"; CNone]; [CStr "x"; CStr "y"]; [CStr "a"; CStr "b"];
            [CStr "c"; CNone]] in
  header_scan DfVariant g 200 None = mk_scan 2 1 false
  /\ (forall j r, j < 1 -> scanned DfVariant 200 g !! j = Some r ->
        consecutive_count DfVariant r < 2)
  /\ (forall r, r ∈ scanned DfVariant 200 g -> consecutive_count DfVariant r <= 2).
Proof.
  intros g.
  destruct (without_keyword_exit_maximum_is_global DfVariant g 200 None eq_refl)
    as (Hall & Habove & _ & _).
  split; [reflexivity|]. split; [exact Habove|exact Hall].
Defined.

(** X5.  Keywords that no scanned row holds in full change nothing: the result
    is the one obtained without keywords. *)
Theorem unmatched_keywords_change_nothing (v : variant) (rows : grid)
    (max_rows : Z) (kw : option (list string)) :
  (forall r, r ∈ scanned v max_rows rows -> keywords_present v kw r = false) ->
  header_scan v rows max_rows kw = header_scan v rows max_rows None.
Proof.
  intros H. rewrite !header_scan_scan. apply scan_ext_hit.
  intros r Hr. rewrite (H r Hr). symmetry. by apply keywords_present_none.
Qed.

Lemma unmatched_keywords_change_nothing_witness :
  header_scan ExcelVariant [[CStr "Report"]; [CStr "id"; CStr "qty"]] 200 (Some ["id"; "date"])
  = header_scan ExcelVariant [[CStr "Report"]; [CStr "id"; CStr "qty"]] 200 None.
Proof.
  apply unmatched_keywords_change_nothing.
  intros r [->|[->|[]%elem_of_nil]%elem_of_cons]%elem_of_cons; reflexivity.
Defined.

Lemma keywords_present_lower v (kws kws' : list string) r :
  Py.lower <$> kws = Py.lower <$> kws' ->
  keywords_present v (Some kws) r = keywords_present v (Some kws') r.
Proof.
  intros H.
  assert (Hg : keywords_given (Some kws) = keywords_given (Some kws')).
  { destruct kws, kws'; done. }
  assert (Ha : forall rv, all_keywords_in rv (Some kws) = all_keywords_in rv (Some kws')).
  { intros rv. unfold all_keywords_in. simpl.
    assert (Hm : forall l, forallb (fun keyword => Py.contains rv (Py.lower keyword)) l
                           = forallb (Py.contains rv) (Py.lower <$> l)).
    { induction l as [|k l IH]; [done|]. simpl. by rewrite IH. }
    by rewrite !Hm, H. }
  destruct v; simpl; unfold Excel.is_all_keywords_present, Df.all_keywords_present;
    by rewrite Hg, Ha.
Qed.

(** X6.  Keywords are compared case-insensitively: two keyword lists that are
    equal once lower-cased give the same result. *)
Theorem keyword_case_does_not_matter (v : variant) (rows : grid) (max_rows : Z)
    (kws kws' : list string) :
  Py.lower <$> kws = Py.lower <$> kws' ->
  header_scan v rows max_rows (Some kws) = header_scan v rows max_rows (Some kws').
Proof.
  intros H. rewrite !header_scan_scan. apply scan_ext_hit.
  intros r _. by apply keywords_present_lower.
Qed.

Lemma keyword_case_does_not_matter_witness :
  header_scan DfVariant [[CStr "Report"; CStr "x"; CStr "y"]; [CStr "po number"]] 200
    (Some ["PO Number"])
  = header_scan DfVariant [[CStr "Report"; CStr "x"; CStr "y"]; [CStr "po number"]] 200
      (Some ["po number"]).
Proof. apply keyword_case_does_not_matter. reflexivity. Defined.

Module PyLengths.
Import Py PyFacts.

Lemma lower_length s : String.length (lower s) = String.length s.
Proof. induction s as [|c s IH]; simpl; [done|]. by rewrite IH. Qed.

Lemma rstrip_length s : String.length (rstrip s) <= String.length s.
Proof.
  induction s as [|c s IH]; [done|]. rewrite rstrip_cons.
  destruct (rstrip s); [destruct (is_space c)|]; simpl in *; lia.
Qed.

Lemma lstrip_same_length s :
  String.length (lstrip s) = String.length s -> lstrip s = s.
Proof.
  destruct s as [|c s]; [done|]. simpl. destruct (is_space c); [|done].
  intros H. pose proof (lstrip_length s). lia.
Qed.

Lemma rstrip_same_length s :
  String.length (rstrip s) = String.length s -> rstrip s = s.
Proof.
  induction s as [|c s IH]; [done|]. rewrite rstrip_cons.
  pose proof (rstrip_length s) as Hl.
  destruct (rstrip s) as [|a r] eqn:E.
  - destruct (is_space c); simpl; intros H; [lia|].
    destruct s; [done|]. simpl in H. lia.
  - simpl. intros H. rewrite IH; [done|]. simpl in Hl |- *. lia.
Qed.

Lemma strip_same_length s :
  String.length (strip s) = String.length s -> strip s = s.
Proof.
  unfold strip. intros H.
  pose proof (rstrip_length (lstrip s)) as H1. pose proof (lstrip_length s) as H2.
  assert (Hl : lstrip s = s) by (apply lstrip_same_length; lia).
  rewrite Hl in *. by apply rstrip_same_length.
Qed.

(** A text whose lower-cased form is untouched by [strip] is itself
    untouched by [strip]. *)
Lemma strip_lower_fixed s : strip (lower s) = lower s -> strip s = s.
Proof.
  rewrite strip_lower. intros H. apply strip_same_length.
  by rewrite <- (lower_length (strip s)), H, lower_length.
Qed.

End PyLengths.

Lemma row_value_is_stripped v (r : row) (x : string) :
  x ∈ (match v with
       | ExcelVariant => Excel.row_values r
       | DfVariant => Df.row_values r
       end) ->
  Py.strip x = x.
Proof.
  assert (H : forall value, Py.strip (Py.lower (Py.strip (py_str value)))
                            = Py.lower (Py.strip (py_str value))).
  { intros value. by rewrite PyFacts.strip_lower, PyFacts.strip_idem. }
  destruct v; unfold Excel.row_values, Df.row_values;
    intros (value & -> & _)%list_elem_of_fmap; apply H.
Qed.

(** X7.  The cell texts are trimmed before the comparison but the keywords are
    not: a keyword written with leading or trailing whitespace is never
    found, so a list holding one gives the result obtained without
    keywords. *)
Theorem keyword_with_outer_whitespace_never_matches (v : variant) (rows : grid)
    (max_rows : Z) (kws : list string) (k : string) :
  k ∈ kws ->
  Py.strip k <> k ->
  header_scan v rows max_rows (Some kws) = header_scan v rows max_rows None.
Proof.
  intros Hk Hws. rewrite !header_scan_scan. apply scan_ext_hit. intros r _.
  rewrite (keywords_present_none v None r) by done.
  destruct (keywords_present v (Some kws) r) eqn:E; [|done].
  exfalso. apply Hws.
  assert (Hg : keywords_given (Some kws) = true).
  { destruct kws; [by apply elem_of_nil in Hk|done]. }
  pose proof (proj1 (keywords_present_spec v (Some kws) r Hg) E k Hk) as Hin.
  apply PyLengths.strip_lower_fixed. by apply (row_value_is_stripped v r).
Qed.

Lemma keyword_with_outer_whitespace_never_matches_witness :
  header_scan ExcelVariant [[CStr "Report"]; [CStr "po number"; CStr "qty"]] 200
    (Some ["po number "])
  = header_scan ExcelVariant [[CStr "Report"]; [CStr "po number"; CStr "qty"]] 200 None.
Proof.
  apply (keyword_with_outer_whitespace_never_matches ExcelVariant _ 200 _ "po number ").
  - by left.
  - vm_compute. discriminate.
Defined.

(* ===================================================================== *)
(** * More on [normalize_columns] *)
(* ===================================================================== *)

Module ColumnsMore.
Import Columns ColumnsFacts.

Section WithStripPunctuation.

Variable sp : string -> string.

(** The loop over the columns succeeds exactly when the final names the
    columns resolve to are pairwise distinct (and not used yet), and then
    [rename_dict] holds a column exactly when it resolves to a final name
    other than its own. *)
Lemma assign_spec rm rp lc df used rd :
  match assign rm (zip df (normalized_cols sp df rp lc)) used rd with
  | Ok d =>
      NoDup (omap (fun c => rm !! lookup_key sp rp lc c) df)
      /\ (forall f, f ∈ omap (fun c => rm !! lookup_key sp rp lc c) df -> f ∉ used)
      /\ forall c,
           d !! c = match (if decide (c ∈ df) then rm !! lookup_key sp rp lc c else None) with
                    | Some f => if decide (c = f) then rd !! c else Some f
                    | None => rd !! c
                    end
  | Err e =>
      (exists f, e = MultipleColumns f)
      /\ ~ (NoDup (omap (fun c => rm !! lookup_key sp rp lc c) df)
            /\ forall f, f ∈ omap (fun c => rm !! lookup_key sp rp lc c) df -> f ∉ used)
  end.
Proof.
  revert used rd. induction df as [|c0 df IH]; intros used rd.
  - simpl. split; [constructor|]. split.
    + intros f Hf. by apply elem_of_nil in Hf.
    + intros c. destruct (decide (c ∈ [])) as [Hc|_]; [by apply elem_of_nil in Hc|done].
  - rewrite assign_cons. cbn [omap list_omap].
    destruct (rm !! lookup_key sp rp lc c0) as [f0|] eqn:E0.
    + destruct (decide (f0 ∈ used)) as [Hin|Hnin].
      * split; [by exists f0|]. intros [_ Hf]. apply (Hf f0); [by left|done].
      * specialize (IH ({[f0]} ∪ used) (if decide (c0 = f0) then rd else <[c0:=f0]> rd)).
        destruct (assign rm _ ({[f0]} ∪ used) _) as [d|e].
        -- destruct IH as (Hnd & Hf & Hd). split; [|split].
           ++ constructor; [|done]. intros Hf0. apply (Hf f0 Hf0).
              apply elem_of_union. left. by apply elem_of_singleton.
           ++ intros f [->|Hfin]%elem_of_cons; [done|].
              intros Hu. apply (Hf f Hfin). apply elem_of_union. by right.
           ++ intros c. rewrite Hd. destruct (decide (c = c0)) as [->|Hne].
              ** rewrite E0. rewrite (decide_True (P := c0 ∈ c0 :: df)) by by left.
                 destruct (decide (c0 ∈ df)).
                 --- destruct (decide (c0 = f0)); done.
                 --- destruct (decide (c0 = f0)); [done|]. by rewrite lookup_insert_eq.
              ** assert (Hrd : (if decide (c0 = f0) then rd else <[c0:=f0]> rd) !! c = rd !! c).
                 { destruct (decide (c0 = f0)); [done|]. by rewrite lookup_insert_ne. }
                 rewrite Hrd.
                 destruct (decide (c ∈ df)) as [Hc|Hc].
                 --- rewrite (decide_True (P := c ∈ c0 :: df)) by by right. done.
                 --- rewrite (decide_False (P := c ∈ c0 :: df)); [done|].
                     intros [?|?]%elem_of_cons; done.
        -- destruct IH as [He Hn]. split; [done|]. intros [Hnd Hf].
           apply NoDup_cons in Hnd as [Hf0 Hnd]. apply Hn. split; [done|].
           intros f Hfin. apply not_elem_of_union. split.
           ++ apply not_elem_of_singleton. intros ->. done.
           ++ apply Hf. by right.
    + specialize (IH used rd).
      destruct (assign rm _ used rd) as [d|e]; [|done].
      destruct IH as (Hnd & Hf & Hd). split; [done|]. split; [done|].
      intros c. rewrite Hd. destruct (decide (c = c0)) as [->|Hne].
      * rewrite E0. rewrite (decide_True (P := c0 ∈ c0 :: df)) by by left.
        by destruct (decide (c0 ∈ df)).
      * destruct (decide (c ∈ df)) as [Hc|Hc].
        -- rewrite (decide_True (P := c ∈ c0 :: df)) by by right. done.
        -- rewrite (decide_False (P := c ∈ c0 :: df)); [done|].
           intros [?|?]%elem_of_cons; done.
Qed.

(** The [rename_dict] of lines 48-88 is built exactly when the reverse
    mapping is built and no two columns resolve to the same final name;
    it holds the columns that resolve to a final name other than their
    own. *)
Lemma rename_plan_spec (df : list string) (m : mapping) (rp lc : bool)
    (d : gmap string string) :
  rename_plan sp df m rp lc = Ok d
  <-> exists rm : gmap string string,
        build_reverse_mapping m ∅ = Ok rm
        /\ NoDup (omap (fun c => rm !! lookup_key sp rp lc c) df)
        /\ forall c,
             d !! c
             = match (if decide (c ∈ df) then rm !! lookup_key sp rp lc c
                      else None) with
               | Some f => if decide (c = f) then None else Some f
               | None => None
               end.
Proof.
  unfold rename_plan. split.
  - destruct (build_reverse_mapping m ∅) as [rm|e] eqn:Hb; [|done].
    pose proof (assign_spec rm rp lc df ∅ ∅) as Ha. intros Hd.
    rewrite Hd in Ha. destruct Ha as (Hnd & _ & Hc).
    exists rm. split; [done|]. split; [done|].
    intros c. rewrite Hc. by rewrite (lookup_empty (M := gmap string)).
  - intros (rm & -> & Hnd & Hd).
    pose proof (assign_spec rm rp lc df ∅ ∅) as Ha.
    destruct (assign rm _ ∅ ∅) as [d'|e].
    + f_equal. apply map_eq. intros c. destruct Ha as (_ & _ & Hd').
      by rewrite Hd, Hd', (lookup_empty (M := gmap string)).
    + exfalso. destruct Ha as [_ Hn]. apply Hn. split; [done|].
      intros f _. apply not_elem_of_empty.
Qed.

(** Renaming by that [rename_dict] gives every column the final name it
    resolves to. *)
Lemma rename_by_plan (rm : gmap string string) rp lc df (d : gmap string string) :
  (forall c, d !! c = match (if decide (c ∈ df) then rm !! lookup_key sp rp lc c else None) with
                      | Some f => if decide (c = f) then None else Some f
                      | None => None
                      end) ->
  map (fun c => default c (d !! c)) df
  = map (fun c => default c (rm !! lookup_key sp rp lc c)) df.
Proof.
  intros Hd. apply map_ext_in. intros c Hc%list_elem_of_In.
  rewrite Hd, decide_True by done.
  destruct (rm !! lookup_key sp rp lc c) as [f|]; [|done].
  destruct (decide (c = f)) as [->|]; done.
Qed.

Lemma rename_empty (df : list string) :
  map (fun c => default c ((∅ : gmap string string) !! c)) df = df.
Proof.
  rewrite <- (map_id df) at 2. apply map_ext. intros c.
  by rewrite (lookup_empty (M := gmap string)).
Qed.

Lemma normalize_columns_ok (df : list string) (m : mapping)
    (rp lc : bool) (cols : list string) :
  normalize_columns sp df m rp lc = Ok cols ->
  exists rm,
    build_reverse_mapping m ∅ = Ok rm
    /\ NoDup (omap (fun c => rm !! lookup_key sp rp lc c) df)
    /\ cols = map (fun c => default c (rm !! lookup_key sp rp lc c)) df.
Proof.
  unfold normalize_columns.
  destruct (rename_plan sp df m rp lc) as [d|e] eqn:Hp; [|done].
  apply rename_plan_spec in Hp as (rm & Hb & Hnd & Hd).
  pose proof (rename_by_plan rm rp lc df d Hd) as Hr.
  intros Hcols. exists rm. split; [done|]. split; [done|].
  destruct (decide (d = ∅)) as [->|Hne].
  - injection Hcols as <-. by rewrite <- Hr, rename_empty.
  - unfold rename in Hcols. destruct (decide (NoDup _)); [|done].
    injection Hcols as <-. done.
Qed.


Lemma lookup_key_lowercase rp c :
  lookup_key sp rp true c = lookup_key sp rp false c.
Proof.
  unfold lookup_key. simpl.
  by rewrite PyFacts.strip_lower, PyFacts.strip_idem, PyFacts.lower_idem.
Qed.

Lemma assign_lowercase rm rp df used rd :
  assign rm (zip df (normalized_cols sp df rp true)) used rd
  = assign rm (zip df (normalized_cols sp df rp false)) used rd.
Proof.
  revert used rd. induction df as [|c df IH]; intros used rd; [by destruct rp|].
  rewrite !assign_cons, lookup_key_lowercase.
  destruct (rm !! lookup_key sp rp false c); [|apply IH].
  destruct (decide _); [done|apply IH].
Qed.

(** X9.  The [lowercase_columns] flag has no effect: the loop lower-cases every
    name again before the lookup. *)
Theorem lowercase_columns_flag_has_no_effect (df : list string) (m : mapping)
    (rp : bool) :
  rename_plan sp df m rp true = rename_plan sp df m rp false
  /\ normalize_columns sp df m rp true = normalize_columns sp df m rp false.
Proof.
  assert (H : rename_plan sp df m rp true = rename_plan sp df m rp false).
  { unfold rename_plan. destruct (build_reverse_mapping m ∅); [|done].
    apply assign_lowercase. }
  split; [done|]. unfold normalize_columns. by rewrite H.
Qed.

End WithStripPunctuation.


End ColumnsMore.

(* ===================================================================== *)
(** * [reorder_columns] and [get_missing_columns] *)
(* ===================================================================== *)

Module UtilsFacts.
Import Utils.

Lemma contains_spec xs x : Py.contains xs x = true <-> x ∈ xs.
Proof.
  unfold Py.contains. rewrite existsb_exists. split.
  - intros (y & Hy & ->%String.eqb_eq). by apply list_elem_of_In.
  - intros Hx. exists x. split; [by apply list_elem_of_In|apply String.eqb_refl].
Qed.

Lemma contains_ext xs ys x :
  (forall y, y ∈ xs <-> y ∈ ys) -> Py.contains xs x = Py.contains ys x.
Proof.
  intros H. apply eq_true_iff_eq. rewrite !contains_spec. apply H.
Qed.

Lemma elem_of_filter_bool {A} (f : A -> bool) (l : list A) x :
  x ∈ List.filter f l <-> x ∈ l /\ f x = true.
Proof. rewrite !list_elem_of_In. apply filter_In. Qed.

Lemma filter_none {A} (f : A -> bool) (l : list A) :
  (forall x, x ∈ l -> f x = false) -> List.filter f l = [].
Proof.
  induction l as [|a l IH]; intros H; [done|]. simpl.
  rewrite (H a) by by left. apply IH. intros x Hx. apply H. by right.
Qed.

Lemma filter_all {A} (f : A -> bool) (l : list A) :
  (forall x, x ∈ l -> f x = true) -> List.filter f l = l.
Proof.
  induction l as [|a l IH]; intros H; [done|]. simpl.
  rewrite (H a) by by left. f_equal. apply IH. intros x Hx. apply H. by right.
Qed.

Lemma filter_ext_elem {A} (f g : A -> bool) (l : list A) :
  (forall x, x ∈ l -> f x = g x) -> List.filter f l = List.filter g l.
Proof.
  induction l as [|a l IH]; intros H; [done|]. simpl.
  rewrite (H a) by by left. rewrite IH; [done|]. intros x Hx. apply H. by right.
Qed.

Lemma elem_of_reorder_columns df columns_order x :
  x ∈ reorder_columns df columns_order <-> x ∈ df.
Proof.
  unfold reorder_columns. rewrite elem_of_app, !elem_of_filter_bool, contains_spec.
  rewrite negb_true_iff. split; [tauto|]. intros Hx.
  destruct (Py.contains columns_order x) eqn:E; [|tauto].
  left. split; [by apply contains_spec|done].
Qed.

Lemma elem_of_get_missing_columns df required_columns r :
  r ∈ get_missing_columns df required_columns
  <-> r ∈ required_columns /\ Py.lower r ∉ Py.lower <$> df.
Proof.
  unfold get_missing_columns. rewrite elem_of_filter_bool, negb_true_iff.
  rewrite <- not_true_iff_false, contains_spec. done.
Qed.

(** X11.  With distinct columns and distinct names in [columns_order], the
    columns are only rearranged: none is lost, none is repeated. *)
Theorem reorder_columns_is_a_permutation (df columns_order : list string) :
  NoDup df -> NoDup columns_order ->
  reorder_columns df columns_order ≡ₚ df.
Proof.
  intros Hdf Ho. apply NoDup_Permutation; [|done|apply elem_of_reorder_columns].
  unfold reorder_columns. apply NoDup_app. split; [|split].
  - by apply NoDup_ListNoDup, List.NoDup_filter, NoDup_ListNoDup.
  - intros x [Hx _]%elem_of_filter_bool [_ Hn]%elem_of_filter_bool.
    apply contains_spec in Hx. by rewrite Hx in Hn.
  - by apply NoDup_ListNoDup, List.NoDup_filter, NoDup_ListNoDup.
Qed.

Lemma reorder_columns_is_a_permutation_witness :
  reorder_columns ["A"; "B"; "C"] ["C"; "A"] ≡ₚ ["A"; "B"; "C"]
  /\ reorder_columns ["A"; "B"; "C"] ["C"; "A"] = ["C"; "A"; "B"].
Proof.
  split; [|reflexivity].
  apply reorder_columns_is_a_permutation; apply (bool_decide_unpack _); vm_compute; reflexivity.
Defined.

(** X12.  Reordering again by the same order changes nothing. *)
Theorem reorder_columns_idempotent (df columns_order : list string) :
  reorder_columns (reorder_columns df columns_order) columns_order
  = reorder_columns df columns_order.
Proof.
  assert (H1 : List.filter (Py.contains (reorder_columns df columns_order)) columns_order
               = List.filter (Py.contains df) columns_order).
  { apply filter_ext_elem. intros x _.
    apply contains_ext. intros y. apply elem_of_reorder_columns. }
  assert (H2 : List.filter (fun col => negb (Py.contains columns_order col))
                 (reorder_columns df columns_order)
               = List.filter (fun col => negb (Py.contains columns_order col)) df).
  { unfold reorder_columns. rewrite List.filter_app.
    rewrite (filter_none _ (List.filter (Py.contains df) columns_order)).
    - simpl. apply filter_all. by intros x [_ ?]%elem_of_filter_bool.
    - intros x [Hx _]%elem_of_filter_bool. apply contains_spec in Hx. by rewrite Hx. }
  change (reorder_columns (reorder_columns df columns_order) columns_order)
    with (List.filter (Py.contains (reorder_columns df columns_order)) columns_order
          ++ List.filter (fun col => negb (Py.contains columns_order col))
               (reorder_columns df columns_order)).
  by rewrite H1, H2.
Qed.

(** X13.  Names of [columns_order] that are no columns of the frame are
    ignored; the named columns come first, in the order of
    [columns_order], and the others follow in their own order. *)
Theorem reorder_columns_ignores_unknown_names (df columns_order : list string) :
  reorder_columns df columns_order
  = reorder_columns df (List.filter (Py.contains df) columns_order)
  /\ reorder_columns df columns_order
     = List.filter (Py.contains df) columns_order
       ++ List.filter (fun col => negb (Py.contains (List.filter (Py.contains df) columns_order) col)) df.
Proof.
  assert (H : List.filter (fun col => negb (Py.contains columns_order col)) df
              = List.filter (fun col => negb (Py.contains
                                (List.filter (Py.contains df) columns_order) col)) df).
  { apply filter_ext_elem. intros x Hx. f_equal. apply eq_true_iff_eq.
    rewrite !contains_spec, elem_of_filter_bool, contains_spec. tauto. }
  unfold reorder_columns. split.
  - rewrite <- H. f_equal. symmetry. apply filter_all. by intros x [_ ?]%elem_of_filter_bool.
  - by rewrite <- H.
Qed.

(** X14.  Reordering the columns does not change which required columns are
    missing. *)
Theorem reorder_columns_keeps_missing_columns (df columns_order required : list string) :
  get_missing_columns (reorder_columns df columns_order) required
  = get_missing_columns df required.
Proof.
  unfold get_missing_columns. apply filter_ext_elem. intros x _. f_equal.
  apply contains_ext. intros y. rewrite !list_elem_of_fmap.
  split; intros (c & -> & Hc); exists c; (split; [done|]);
    by apply (elem_of_reorder_columns df columns_order c).
Qed.

(** X15.  A required column is reported missing exactly when no column of the
    frame equals it up to letter case; the report keeps the order, and
    the repetitions, of [required_columns]. *)
Theorem get_missing_columns_spec (df required_columns : list string) :
  (forall r, r ∈ get_missing_columns df required_columns
             <-> r ∈ required_columns /\ forall c, c ∈ df -> Py.lower c <> Py.lower r)
  /\ sublist (get_missing_columns df required_columns) required_columns
  /\ (get_missing_columns df required_columns = []
      <-> forall r, r ∈ required_columns -> exists c, c ∈ df /\ Py.lower c = Py.lower r).
Proof.
  assert (Hin : forall r, Py.lower r ∉ Py.lower <$> df
                          <-> forall c, c ∈ df -> Py.lower c <> Py.lower r).
  { intros r. rewrite list_elem_of_fmap. split.
    - intros Hn c Hc Heq. apply Hn. by exists c.
    - intros Hn (c & Heq & Hc). by apply (Hn c). }
  split; [|split].
  - intros r. by rewrite elem_of_get_missing_columns, Hin.
  - unfold get_missing_columns. induction required_columns as [|r l IH]; [done|].
    simpl. destruct (negb _); [by apply sublist_skip|by apply sublist_cons].
  - split.
    + intros He r Hr.
      destruct (decide (Py.lower r ∈ Py.lower <$> df)) as [Hd|Hd].
      * apply list_elem_of_fmap in Hd as (c & Heq & Hc). by exists c.
      * exfalso. assert (r ∈ get_missing_columns df required_columns) as Hm
          by by apply elem_of_get_missing_columns.
        rewrite He in Hm. by apply elem_of_nil in Hm.
    + intros H. apply filter_none. intros r Hr. apply negb_false_iff, contains_spec.
      destruct (H r Hr) as (c & Hc & Heq). apply list_elem_of_fmap. by exists c.
Qed.

End UtilsFacts.

Module ColumnsThenMissing.
Import Columns ColumnsFacts Utils UtilsFacts.

(** X10.  After [normalize_columns], a final name some column resolved to is
    not reported missing by [get_missing_columns], in whatever letter
    case it is required. *)
Theorem matched_final_name_is_not_missing (sp : string -> string)
    (df : list string) (m : mapping) (rp lc : bool) (cols : list string)
    (rm : gmap string string) (c f : string) (required : list string) (r : string) :
  normalize_columns sp df m rp lc = Ok cols ->
  build_reverse_mapping m ∅ = Ok rm ->
  c ∈ df ->
  rm !! lookup_key sp rp lc c = Some f ->
  Py.lower r = Py.lower f ->
  r ∉ get_missing_columns cols required.
Proof.
  intros Hn Hb Hc Hf Hr.
  apply ColumnsMore.normalize_columns_ok in Hn as (rm' & Hb' & _ & ->).
  rewrite Hb in Hb'. injection Hb' as <-.
  rewrite elem_of_get_missing_columns. intros [_ Hm]. apply Hm.
  apply list_elem_of_fmap. exists f. split; [done|].
  apply list_elem_of_fmap. exists c. by rewrite Hf.
Qed.

Lemma matched_final_name_is_not_missing_witness :
  get_missing_columns ["full_name"; "notes"] ["Full_Name"; "City"] = ["City"]
  /\ "Full_Name" ∉ get_missing_columns ["full_name"; "notes"] ["Full_Name"; "City"].
Proof.
  split; [reflexivity|].
  apply (matched_final_name_is_not_missing strip_punctuation_default
           [" Name "; "notes"] [("full_name", One "name")] true true
           ["full_name"; "notes"] (<["name" := "full_name"]> ∅) " Name " "full_name").
  - vm_compute; reflexivity.
  - vm_compute; reflexivity.
  - by left.
  - vm_compute; reflexivity.
  - reflexivity.
Defined.

End ColumnsThenMissing.

(* ===================================================================== *)
(** * [read_excel] and its helpers *)
(* ===================================================================== *)

Module ReadExcelFacts.
Import ReadExcel.

Lemma normalized_name_fixed s :
  Py.lower (Py.lower (Py.strip s)) = Py.lower (Py.strip s)
  /\ Py.strip (Py.lower (Py.strip s)) = Py.lower (Py.strip s).
Proof.
  split; [apply PyFacts.lower_idem|].
  by rewrite PyFacts.strip_lower, PyFacts.strip_idem.
Qed.

Section Frames.

Context {dtype : Type}.

(** X16.  Lower-casing the column names a second time changes nothing; the
    data types and the number of columns are kept. *)
Theorem lower_column_names_idempotent (df : list (string * dtype)) :
  _lower_column_names (_lower_column_names df) = _lower_column_names df
  /\ (_lower_column_names df).*2 = df.*2.
Proof.
  unfold _lower_column_names. split.
  - rewrite map_map. apply map_ext. intros [col t].
    destruct (normalized_name_fixed col) as [H1 H2]. by rewrite H2, H1.
  - induction df as [|[col t] df IH]; [done|]. simpl. by f_equal.
Qed.

Lemma with_cast_absent col (t : dtype) df :
  col ∉ df.*1 -> with_cast col t df = df.
Proof.
  induction df as [|[name d] df IH]; [done|]. simpl.
  intros Hn. apply not_elem_of_cons in Hn as [Hne Hn].
  destruct (String.eqb_spec name col) as [->|_]; [done|]. by rewrite IH.
Qed.

Lemma cast_items_step col (t : dtype) items df :
  cast_items ((col, t) :: items) df
  = cast_items items (with_cast (Py.lower (Py.strip col)) t df).
Proof.
  simpl. destruct (Py.contains df.*1 (Py.lower (Py.strip col))) eqn:E; simpl; [done|].
  rewrite with_cast_absent; [done|].
  intros Hin. apply UtilsFacts.contains_spec in Hin. congruence.
Qed.

Lemma cast_items_types (items : list (string * dtype)) (df : list (string * dtype)) :
  cast_items items df
  = map (fun '(name, d) => (name, default d (cast_for name items))) df.
Proof.
  revert df. induction items as [|[col t] items IH]; intros df.
  - simpl. rewrite <- (map_id df) at 1. apply map_ext. by intros [name d].
  - rewrite cast_items_step, IH. unfold with_cast. rewrite map_map.
    apply map_ext. intros [name d]. simpl.
    rewrite (String.eqb_sym (Py.lower (Py.strip col)) name).
    destruct (name =? Py.lower (Py.strip col)); simpl;
      by destruct (cast_for name items).
Qed.

Lemma cast_columns_names (df : list (string * dtype)) cast :
  (_cast_columns df cast).*1 = df.*1.
Proof.
  destruct cast as [items|]; [|done]. simpl. rewrite cast_items_types.
  induction df as [|[name d] df IH]; [done|]. simpl. by f_equal.
Qed.

(** X17.  [_cast_columns] keeps the columns and their order; each column gets
    the type of the last item of [cast] whose key, trimmed and
    lower-cased, is the column's name, and keeps its type when there is
    none.  Keys that name no column are skipped. *)
Theorem cast_columns_types (df : list (string * dtype)) (items : list (string * dtype)) :
  _cast_columns df (Some items)
  = map (fun '(name, d) => (name, default d (cast_for name items))) df
  /\ (_cast_columns df (Some items)).*1 = df.*1.
Proof.
  assert (H : _cast_columns df (Some items)
              = map (fun '(name, d) => (name, default d (cast_for name items))) df)
    by apply cast_items_types.
  split; [done|]. rewrite H. clear H.
  induction df as [|[name d] df IH]; [done|]. simpl. by f_equal.
Qed.

Lemma lower_column_names_names (df : list (string * dtype)) n :
  n ∈ (_lower_column_names df).*1 -> Py.lower n = n /\ Py.strip n = n.
Proof.
  unfold _lower_column_names.
  intros ([n' t] & -> & ([col t'] & [= -> ->] & _)%list_elem_of_fmap)%list_elem_of_fmap.
  simpl. apply normalized_name_fixed.
Qed.

Lemma read_all_sheets_loop_lookup sheets cast
    (acc : gmap string (list (string * dtype))) k f :
  read_all_sheets_loop sheets cast acc !! k = Some f ->
  acc !! k = Some f
  \/ exists name df, (name, df) ∈ sheets /\ k = Py.lower name
                     /\ f = _cast_columns (_lower_column_names df) cast.
Proof.
  revert acc. induction sheets as [|[name df] sheets IH]; intros acc; simpl; [by left|].
  intros [Hacc|(name' & df' & Hin & -> & ->)]%IH.
  - apply lookup_insert_Some in Hacc as [[<- <-]|[_ Hacc]]; [|by left].
    right. exists name, df. split; [by left|done].
  - right. exists name', df'. split; [by right|done].
Qed.

Lemma read_all_sheets_loop_other sheets cast
    (acc : gmap string (list (string * dtype))) k :
  k ∉ Py.lower <$> sheets.*1 ->
  read_all_sheets_loop sheets cast acc !! k = acc !! k.
Proof.
  revert acc. induction sheets as [|[name df] sheets IH]; intros acc; simpl; [done|].
  intros [Hne Hn]%not_elem_of_cons. rewrite IH by done. by rewrite lookup_insert_ne.
Qed.

(** X18.  When the sheet names stay distinct once lower-cased, the result of
    [_read_all_sheets] holds every sheet, and nothing else, under its
    lower-cased name, with its column names lower-cased and its columns
    cast. *)
Theorem read_all_sheets_lookup (sheets : list (string * list (string * dtype)))
    (cast : option (list (string * dtype))) (k : string) (f : list (string * dtype)) :
  NoDup (Py.lower <$> sheets.*1) ->
  _read_all_sheets sheets cast !! k = Some f
  <-> exists name df, (name, df) ∈ sheets /\ k = Py.lower name
                      /\ f = _cast_columns (_lower_column_names df) cast.
Proof.
  intros Hnd. unfold _read_all_sheets. split.
  - intros [Hacc|H]%read_all_sheets_loop_lookup; [|done].
    by rewrite lookup_empty in Hacc.
  - intros (name & df & Hin & -> & ->).
    generalize (∅ : gmap string (list (string * dtype))). revert Hnd Hin.
    induction sheets as [|[name0 df0] sheets IH]; intros Hnd Hin acc.
    + by apply elem_of_nil in Hin.
    + simpl in Hnd. apply NoDup_cons in Hnd as [Hfresh Hnd]. simpl.
      apply elem_of_cons in Hin as [[= -> ->]|Hin].
      * rewrite read_all_sheets_loop_other by done. by rewrite lookup_insert_eq.
      * by apply IH.
Qed.

Section Reader.

Context {any polars_error : Type}.
Variable int_value : Z -> any.
Variable pl_read_all :
  option (gmap string any) -> outcome polars_error (list (string * list (string * dtype))).
Variable pl_read_one :
  option Z -> option string -> option (gmap string any) ->
  outcome polars_error (list (string * dtype)).

(** X19.  Whatever the reader gives, every column name of a frame returned by
    [read_excel] is lower-case and trimmed; with [read_all_sheets] the
    sheet names the frames are filed under are lower-case too. *)
Theorem read_excel_names_are_normalized (sheet_id : option Z)
    (sheet_name : option string) (read_options : option (gmap string any))
    (header_row : option Z) (cast : option (list (string * dtype)))
    (read_all_sheets : bool) (res : read_result dtype) :
  read_excel int_value pl_read_all pl_read_one sheet_id sheet_name read_options
    header_row cast read_all_sheets = Returned res ->
  match res with
  | OneFrame df => forall n, n ∈ df.*1 -> Py.lower n = n /\ Py.strip n = n
  | FramePerSheet dfs =>
      forall k df, dfs !! k = Some df ->
        Py.lower k = k /\ forall n, n ∈ df.*1 -> Py.lower n = n /\ Py.strip n = n
  end.
Proof.
  unfold read_excel.
  assert (Hbody :
    (if bool_decide (sheet_id = Some 0%Z) then Raised SheetIdFromOne
     else if read_all_sheets
          then match pl_read_all (with_header_row int_value header_row read_options) with
               | Raised e => Raised (ReaderError e)
               | Returned df => Returned (FramePerSheet (_read_all_sheets df cast))
               end
          else match pl_read_one sheet_id sheet_name
                       (with_header_row int_value header_row read_options) with
               | Raised e => Raised (ReaderError e)
               | Returned df =>
                   Returned (OneFrame (_cast_columns (_lower_column_names df) cast))
               end) = Returned res ->
    match res with
    | OneFrame df => forall n, n ∈ df.*1 -> Py.lower n = n /\ Py.strip n = n
    | FramePerSheet dfs =>
        forall k df, dfs !! k = Some df ->
          Py.lower k = k /\ forall n, n ∈ df.*1 -> Py.lower n = n /\ Py.strip n = n
    end).
  { destruct (bool_decide _); [done|]. destruct read_all_sheets.
    - destruct (pl_read_all _) as [sheets|e]; [|done]. intros [= <-].
      intros k df [Hk|(name & df0 & _ & -> & ->)]%read_all_sheets_loop_lookup.
      + by rewrite lookup_empty in Hk.
      + split; [apply PyFacts.lower_idem|]. intros n. rewrite cast_columns_names.
        apply lower_column_names_names.
    - destruct (pl_read_one _ _ _) as [df|e]; [|done]. intros [= <-].
      intros n. rewrite cast_columns_names. apply lower_column_names_names. }
  destruct sheet_id, sheet_name; try done.
Qed.

End Reader.

End Frames.

Lemma cast_columns_types_example :
  _cast_columns (_lower_column_names [(" Date ", Utf8); ("Value", Utf8); ("id", Int64)])
    (Some [("date", Date); ("VALUE ", Int64); ("missing", Date); ("value", Float64)])
  = [("date", Date); ("value", Float64); ("id", Int64)].
Proof. reflexivity. Qed.

Lemma read_all_sheets_lookup_witness :
  _read_all_sheets [("Data", [("Qty", Utf8)]); ("Summary", [("Total ", Utf8)])]
    (Some [("qty", Int64)]) !! "data"
  = Some [("qty", Int64)].
Proof.
  apply (read_all_sheets_lookup _ _ "data" [("qty", Int64)]).
  - apply (bool_decide_unpack _); vm_compute; reflexivity.
  - exists "Data", [("Qty", Utf8)]. split; [by left|]. split; reflexivity.
Defined.

Lemma read_excel_names_are_normalized_witness :
  Py.lower "unit price" = "unit price" /\ Py.strip "unit price" = "unit price".
Proof.
  apply (read_excel_names_are_normalized (fun z => z)
           (fun _ => Raised tt)
           (fun _ _ _ => Returned [(" Qty", Utf8); ("Unit Price ", Utf8)])
           (Some 2%Z) None None (Some 3%Z) (Some [("QTY", Int64)]) false
           (OneFrame [("qty", Int64); ("unit price", Utf8)]) eq_refl "unit price").
  apply list_elem_of_lookup. exists 1. reflexivity.
Defined.

End ReadExcelFacts.

(* ===================================================================== *)
(** * [_read_visible_rows_from_sheet] *)
(* ===================================================================== *)

Module ReadExcelSheetFacts.
Import ReadExcelSheet.

Lemma visible_rows_app ws1 ws2 :
  visible_rows (ws1 ++ ws2) = visible_rows ws1 ++ visible_rows ws2.
Proof.
  induction ws1 as [|r ws1 IH]; [done|]. simpl.
  destruct (hidden r); [done|]. by rewrite IH.
Qed.

Lemma elem_of_visible_rows ws row :
  row ∈ visible_rows ws
  <-> exists r, r ∈ ws /\ hidden r = false /\ row = map blank_to_none (values r).
Proof.
  induction ws as [|r0 ws IH]; simpl.
  - split; [by intros ?%elem_of_nil|]. by intros (r & ?%elem_of_nil & _).
  - destruct (hidden r0) eqn:Hh.
    + rewrite IH. split.
      * intros (r & Hr & H). exists r. split; [by right|done].
      * intros (r & [->|Hr]%elem_of_cons & Hv & ->); [congruence|]. by exists r.
    + rewrite elem_of_cons, IH. split.
      * intros [->|(r & Hr & H)]; [exists r0; split; [by left|done]|].
        exists r. split; [by right|done].
      * intros (r & [->|Hr]%elem_of_cons & Hv & ->); [by left|]. right. by exists r.
Qed.

Lemma blank_to_none_not_blank value : blank_to_none value <> CStr "".
Proof. destruct value as [|[|c s]| | |]; done. Qed.

Lemma getitem_elem_of {A} (l : list A) i x : PySeq.getitem l i = Some x -> x ∈ l.
Proof.
  unfold PySeq.getitem. intros H. apply list_elem_of_lookup.
  destruct (0 <=? i)%Z; [by eexists|].
  destruct (0 <=? _)%Z; [by eexists|done].
Qed.

Lemma slice_from_suffix {A} (l : list A) k : exists n, PySeq.slice_from l k = drop n l.
Proof. unfold PySeq.slice_from. destruct (0 <=? k)%Z; by eexists. Qed.

Section Frames.

Variable frame : Type.
Variable polars_error : Type.
Variable empty_frame : frame.
Variable new_frame : list (list cell) -> list cell -> outcome polars_error frame.

(** The index [header_row] stands for. *)
Lemma header_index header_row :
  (if header_row_truthy header_row then default 0%Z header_row else 0%Z)
  = default 0%Z header_row.
Proof.
  destruct header_row as [h|]; simpl; [|done].
  destruct (Z.eqb_spec h 0) as [->|]; done.
Qed.

Lemma read_visible_rows_nonempty source sheet_name header_row ws :
  select_sheet source sheet_name = Returned ws ->
  visible_rows ws <> [] ->
  _read_visible_rows_from_sheet empty_frame new_frame source sheet_name header_row
  = (if (default 0%Z header_row >=? Z.of_nat (length (visible_rows ws)))%Z
     then Raised (inl (HeaderRowOutOfBounds header_row))
     else match PySeq.getitem (visible_rows ws) (default 0%Z header_row) with
          | None => Raised (inl IndexError)
          | Some headers =>
              from_polars
                (new_frame (PySeq.slice_from (visible_rows ws)
                              (default 0%Z header_row + 1)) headers)
          end).
Proof.
  intros Hs Hne. unfold _read_visible_rows_from_sheet. rewrite Hs.
  cbv zeta. rewrite header_index. by destruct (visible_rows ws).
Qed.

Lemma getitem_range {A} (l : list A) i x :
  PySeq.getitem l i = Some x -> (- Z.of_nat (length l) <= i < Z.of_nat (length l))%Z.
Proof.
  unfold PySeq.getitem. intros H.
  destruct (Z.leb_spec 0 i).
  - apply lookup_lt_Some in H. lia.
  - destruct (Z.leb_spec 0 (Z.of_nat (length l) + i)); [lia|done].
Qed.

Lemma getitem_in_range {A} (l : list A) i :
  (- Z.of_nat (length l) <= i < Z.of_nat (length l))%Z ->
  is_Some (PySeq.getitem l i).
Proof.
  intros Hi. unfold PySeq.getitem.
  destruct (Z.leb_spec 0 i).
  - apply lookup_lt_is_Some. lia.
  - destruct (Z.leb_spec 0 (Z.of_nat (length l) + i)); [|lia].
    apply lookup_lt_is_Some. lia.
Qed.

(** X20.  The outcome on a sheet, by the number [n] of its visible rows and the
    index [idx] that [header_row] stands for (0 when it is absent):
    [pl.DataFrame()] when [n = 0]; the out-of-bounds error when
    [idx >= n]; [IndexError] when [idx < -n]; otherwise whatever
    [pl.DataFrame] makes of the visible row [idx] as header and the
    visible rows from [idx + 1] on as data. *)
Theorem visible_rows_outcome (source : list (string * list sheet_row))
    (sheet_name : option string) (header_row : option Z) (ws : list sheet_row) :
  select_sheet source sheet_name = Returned ws ->
  let n := Z.of_nat (length (visible_rows ws)) in
  let idx := default 0%Z header_row in
  let result :=
    _read_visible_rows_from_sheet empty_frame new_frame source sheet_name header_row in
  (n = 0%Z -> result = Returned empty_frame)
  /\ ((0 < n)%Z -> (n <= idx)%Z ->
      result = Raised (inl (HeaderRowOutOfBounds header_row)))
  /\ ((0 < n)%Z -> (idx < - n)%Z -> result = Raised (inl IndexError))
  /\ ((0 < n)%Z -> (- n <= idx < n)%Z ->
      exists headers,
        PySeq.getitem (visible_rows ws) idx = Some headers
        /\ headers ∈ visible_rows ws
        /\ result = from_polars
                      (new_frame (PySeq.slice_from (visible_rows ws) (idx + 1))
                         headers)).
Proof.
  intros Hs n idx result. subst n idx result.
  split.
  { intros Hn. unfold _read_visible_rows_from_sheet. rewrite Hs.
    destruct (visible_rows ws); [done|]. simpl in Hn. lia. }
  assert (Hne : (0 < Z.of_nat (length (visible_rows ws)))%Z -> visible_rows ws <> []).
  { intros Hn E. rewrite E in Hn. simpl in Hn. lia. }
  split; [|split].
  - intros Hn Hge. rewrite (read_visible_rows_nonempty _ _ _ _ Hs (Hne Hn)).
    destruct (Z.geb_spec (default 0%Z header_row)
                (Z.of_nat (length (visible_rows ws)))); [done|lia].
  - intros Hn Hlt. rewrite (read_visible_rows_nonempty _ _ _ _ Hs (Hne Hn)).
    destruct (Z.geb_spec (default 0%Z header_row)
                (Z.of_nat (length (visible_rows ws)))); [lia|].
    destruct (PySeq.getitem (visible_rows ws) (default 0%Z header_row))
      as [headers|] eqn:Hg; [|done].
    apply getitem_range in Hg. lia.
  - intros Hn Hin. rewrite (read_visible_rows_nonempty _ _ _ _ Hs (Hne Hn)).
    destruct (Z.geb_spec (default 0%Z header_row)
                (Z.of_nat (length (visible_rows ws)))); [lia|].
    destruct (getitem_in_range (visible_rows ws) (default 0%Z header_row) Hin)
      as [headers Hg].
    exists headers. rewrite Hg. split; [done|]. split; [|done].
    by eapply getitem_elem_of.
Qed.

(** X21.  [header_row] counts visible rows: when the sheet is [pre ++ r :: post]
    with [r] visible and [header_row] is the number of visible rows of
    [pre], [pl.DataFrame] is given row [r] as header and the visible rows
    of [post] as data; hidden rows are skipped on both sides. *)
Theorem header_row_counts_visible_rows (source : list (string * list sheet_row))
    (sheet_name : option string) (pre post : list sheet_row) (r : sheet_row) :
  select_sheet source sheet_name = Returned (pre ++ r :: post) ->
  hidden r = false ->
  _read_visible_rows_from_sheet empty_frame new_frame source sheet_name
    (Some (Z.of_nat (length (visible_rows pre))))
  = from_polars (new_frame (visible_rows post) (map blank_to_none (values r)))
  /\ (visible_rows pre = [] ->
      _read_visible_rows_from_sheet empty_frame new_frame source sheet_name None
      = from_polars (new_frame (visible_rows post) (map blank_to_none (values r)))).
Proof.
  intros Hs Hr.
  assert (Hv : visible_rows (pre ++ r :: post)
               = visible_rows pre ++ map blank_to_none (values r) :: visible_rows post).
  { rewrite visible_rows_app. simpl. by rewrite Hr. }
  assert (Hne : visible_rows (pre ++ r :: post) <> []).
  { rewrite Hv. by destruct (visible_rows pre). }
  rewrite !(read_visible_rows_nonempty _ _ _ _ Hs Hne), Hv.
  set (vp := visible_rows pre). set (hd := map blank_to_none (values r)).
  set (vq := visible_rows post).
  assert (Hcore : forall h,
            (if (Z.of_nat (length vp) >=? Z.of_nat (length (vp ++ hd :: vq)))%Z
             then Raised (inl (HeaderRowOutOfBounds h))
             else match PySeq.getitem (vp ++ hd :: vq) (Z.of_nat (length vp)) with
                  | None => Raised (inl IndexError)
                  | Some headers =>
                      from_polars
                        (new_frame
                           (PySeq.slice_from (vp ++ hd :: vq) (Z.of_nat (length vp) + 1))
                           headers)
                  end) = from_polars (new_frame vq hd)).
  { intros h. rewrite length_app. simpl.
    destruct (Z.geb_spec (Z.of_nat (length vp)) (Z.of_nat (length vp + S (length vq))));
      [lia|].
    unfold PySeq.getitem, PySeq.slice_from.
    destruct (Z.leb_spec 0 (Z.of_nat (length vp))); [|lia].
    destruct (Z.leb_spec 0 (Z.of_nat (length vp) + 1)); [|lia].
    rewrite Nat2Z.id, list_lookup_middle by done.
    replace (Z.to_nat (Z.of_nat (length vp) + 1)) with (length vp + 1) by lia.
    rewrite <- drop_drop, drop_app_length. done. }
  split.
  - simpl default. apply Hcore.
  - intros Hvp. simpl default.
    specialize (Hcore None). rewrite Hvp in Hcore |- *. apply Hcore.
Qed.

(** X22.  A negative [header_row] is not rejected.  With [n] visible rows and
    [-n <= header_row < 0], [pl.DataFrame] is given as header the visible
    row counted from the end; the data are the rows after it, except
    that for [-1] the data are all the visible rows, the header row
    included. *)
Theorem negative_header_row_counts_from_the_end (source : list (string * list sheet_row))
    (sheet_name : option string) (ws : list sheet_row) (h : Z) (headers : list cell) :
  select_sheet source sheet_name = Returned ws ->
  (h < 0)%Z ->
  visible_rows ws !! Z.to_nat (Z.of_nat (length (visible_rows ws)) + h) = Some headers ->
  (- Z.of_nat (length (visible_rows ws)) <= h)%Z ->
  _read_visible_rows_from_sheet empty_frame new_frame source sheet_name (Some h)
  = from_polars
      (new_frame
         (if (h =? -1)%Z then visible_rows ws
          else drop (Z.to_nat (Z.of_nat (length (visible_rows ws)) + h + 1))
                 (visible_rows ws))
         headers).
Proof.
  intros Hs Hneg Hh Hlo.
  assert (Hne : visible_rows ws <> []) by (intros E; by rewrite E in Hh).
  rewrite (read_visible_rows_nonempty _ _ _ _ Hs Hne).
  set (l := visible_rows ws) in *. simpl default.
  destruct (Z.geb_spec h (Z.of_nat (length l))); [lia|].
  unfold PySeq.getitem, PySeq.slice_from.
  destruct (Z.leb_spec 0 h); [lia|].
  destruct (Z.leb_spec 0 (Z.of_nat (length l) + h)); [|lia].
  rewrite Hh. do 2 f_equal.
  destruct (Z.eqb_spec h (-1)) as [->|Hne1].
  - by replace (-1 + 1)%Z with 0%Z by lia.
  - destruct (Z.leb_spec 0 (h + 1)); [lia|].
    by replace (Z.of_nat (length l) + (h + 1))%Z with (Z.of_nat (length l) + h + 1)%Z by lia.
Qed.

(** X23.  No hidden row and no empty text reach [pl.DataFrame]: whenever the
    header index picks a visible row, the header and every data row
    handed over are the cell values of a row that is not hidden, with
    empty texts replaced by [None], and the data rows are the last
    visible rows, in the order of the sheet. *)
Theorem frame_holds_visible_rows_only (source : list (string * list sheet_row))
    (sheet_name : option string) (header_row : option Z) (ws : list sheet_row)
    (headers : list cell) :
  select_sheet source sheet_name = Returned ws ->
  PySeq.getitem (visible_rows ws) (default 0%Z header_row) = Some headers ->
  let data := PySeq.slice_from (visible_rows ws) (default 0%Z header_row + 1) in
  _read_visible_rows_from_sheet empty_frame new_frame source sheet_name header_row
  = from_polars (new_frame data headers)
  /\ (forall row, row ∈ headers :: data ->
        (exists r, r ∈ ws /\ hidden r = false /\ row = map blank_to_none (values r))
        /\ CStr "" ∉ row)
  /\ data `suffix_of` visible_rows ws.
Proof.
  intros Hs Hg data. subst data.
  assert (Hne : visible_rows ws <> []).
  { intros E. rewrite E in Hg. apply getitem_elem_of in Hg.
    by apply elem_of_nil in Hg. }
  pose proof (getitem_range _ _ _ Hg) as Hrange.
  rewrite (read_visible_rows_nonempty _ _ _ _ Hs Hne).
  destruct (Z.geb_spec (default 0%Z header_row)
              (Z.of_nat (length (visible_rows ws)))); [lia|].
  rewrite Hg. split; [done|].
  destruct (slice_from_suffix (visible_rows ws) (default 0%Z header_row + 1))
    as [k Hk].
  rewrite Hk. split; [|apply suffix_drop].
  intros row Hrow.
  assert (Hin : row ∈ visible_rows ws).
  { apply elem_of_cons in Hrow as [->|Hrow]; [by eapply getitem_elem_of|].
    apply list_elem_of_lookup in Hrow as [i Hi]. rewrite lookup_drop in Hi.
    apply list_elem_of_lookup. by eexists. }
  apply elem_of_visible_rows in Hin as (r & Hr & Hh & ->).
  split; [by exists r|].
  intros (value & Hb & _)%list_elem_of_fmap. symmetry in Hb.
  by apply blank_to_none_not_blank in Hb.
Qed.

(** X24.  A sheet without a visible row gives the empty frame whatever
    [header_row] is: no bound is checked, and [pl.DataFrame] is given no
    row. *)
Theorem no_visible_row_gives_empty_frame (source : list (string * list sheet_row))
    (sheet_name : option string) (header_row : option Z) (ws : list sheet_row) :
  select_sheet source sheet_name = Returned ws ->
  (forall r, r ∈ ws -> hidden r = true) ->
  _read_visible_rows_from_sheet empty_frame new_frame source sheet_name header_row
  = Returned empty_frame.
Proof.
  intros Hs Hall. unfold _read_visible_rows_from_sheet. rewrite Hs.
  assert (Hv : visible_rows ws = []).
  { clear Hs. induction ws as [|r ws IH]; [done|]. simpl.
    rewrite (Hall r) by by left. apply IH. intros r' Hr'. apply Hall. by right. }
  by rewrite Hv.
Qed.

End Frames.

Lemma visible_rows_outcome_witness :
  let ws := [mk_sheet_row false [CStr "a"]; mk_sheet_row true [CStr "b"]] in
  _read_visible_rows_from_sheet ([], []) sample_new_frame [("Sheet1", ws)] None
    (Some 1%Z)
  = Raised (inl (HeaderRowOutOfBounds (Some 1%Z)))
  /\ _read_visible_rows_from_sheet ([], []) sample_new_frame [("Sheet1", ws)] None
       (Some (-2)%Z)
     = Raised (inl IndexError)
  /\ _read_visible_rows_from_sheet ([], []) sample_new_frame [("Sheet1", ws)] None
       (Some (-1)%Z)
     = Returned (["a"], [[CStr "a"]]).
Proof.
  intros ws.
  split; [|split].
  - destruct (visible_rows_outcome _ _ ([], []) sample_new_frame
                [("Sheet1", ws)] None (Some 1%Z) ws eq_refl) as (_ & Hout & _).
    apply Hout; simpl; lia.
  - destruct (visible_rows_outcome _ _ ([], []) sample_new_frame
                [("Sheet1", ws)] None (Some (-2)%Z) ws eq_refl) as (_ & _ & Hidx & _).
    apply Hidx; simpl; lia.
  - destruct (visible_rows_outcome _ _ ([], []) sample_new_frame
                [("Sheet1", ws)] None (Some (-1)%Z) ws eq_refl) as (_ & _ & _ & Hin).
    destruct Hin as (headers & Hg & _ & ->); [simpl; lia|simpl; lia|].
    injection Hg as <-. reflexivity.
Defined.

Lemma header_row_counts_visible_rows_witness :
  _read_visible_rows_from_sheet ([], []) sample_new_frame
    [("Sheet1", [mk_sheet_row false [CStr "Report"; CStr ""];
                 mk_sheet_row true [CStr "internal"; CStr ""];
                 mk_sheet_row false [CStr "id"; CStr "qty"];
                 mk_sheet_row true [CInt 1; CInt 2];
                 mk_sheet_row false [CInt 3; CStr ""]])]
    None (Some 1%Z)
  = Returned (["id"; "qty"], [[CInt 3; CNone]]).
Proof.
  apply (header_row_counts_visible_rows _ _ ([], []) sample_new_frame _ None
           [mk_sheet_row false [CStr "Report"; CStr ""];
            mk_sheet_row true [CStr "internal"; CStr ""]]
           [mk_sheet_row true [CInt 1; CInt 2]; mk_sheet_row false [CInt 3; CStr ""]]
           (mk_sheet_row false [CStr "id"; CStr "qty"])); reflexivity.
Defined.

Lemma negative_header_row_counts_from_the_end_witness :
  _read_visible_rows_from_sheet ([], []) sample_new_frame
    [("Sheet1", [mk_sheet_row false [CStr "id"]; mk_sheet_row false [CInt 1];
                 mk_sheet_row false [CStr "total"]])]
    None (Some (-1)%Z)
  = Returned (["total"], [[CStr "id"]; [CInt 1]; [CStr "total"]]).
Proof.
  apply (negative_header_row_counts_from_the_end _ _ ([], []) sample_new_frame _ None
           [mk_sheet_row false [CStr "id"]; mk_sheet_row false [CInt 1];
            mk_sheet_row false [CStr "total"]] (-1) [CStr "total"]).
  - reflexivity.
  - lia.
  - reflexivity.
  - simpl. lia.
Defined.

Lemma frame_holds_visible_rows_only_witness :
  let ws := [mk_sheet_row false [CStr "id"; CStr "qty"];
             mk_sheet_row true [CInt 1; CInt 2];
             mk_sheet_row false [CInt 3; CStr ""]] in
  _read_visible_rows_from_sheet ([], []) sample_new_frame [("Sheet1", ws)] None None
  = Returned (["id"; "qty"], [[CInt 3; CNone]])
  /\ [[CInt 3; CNone]] `suffix_of` visible_rows ws.
Proof.
  intros ws.
  destruct (frame_holds_visible_rows_only _ _ ([], []) sample_new_frame
              [("Sheet1", ws)] None None ws [CStr "id"; CStr "qty"]
              eq_refl eq_refl) as (Hres & _ & Hsuffix).
  split; [exact Hres|exact Hsuffix].
Defined.

Lemma no_visible_row_gives_empty_frame_witness :
  _read_visible_rows_from_sheet ([], []) sample_new_frame
    [("Totals", []); ("Data", [mk_sheet_row true [CStr "id"]])] (Some "Data") (Some 7%Z)
  = Returned ([], []).
Proof.
  apply (no_visible_row_gives_empty_frame _ _ ([], []) sample_new_frame
           _ (Some "Data") (Some 7%Z) [mk_sheet_row true [CStr "id"]]).
  - reflexivity.
  - intros r [->|[]%elem_of_nil]%elem_of_cons. reflexivity.
Defined.

End ReadExcelSheetFacts.
